(** * music-patterns: [src/signal_processing.py]

    A shallow embedding of [load_q_transform_audio_file], the one function
    of the repository.  The function is a straight-line pipeline of four
    library calls ([librosa.load], [librosa.cqt], [librosa.magphase],
    [librosa.core.amplitude_to_db]) glued by one numpy expression
    ([... [0] ** 4]).  The library calls are collaborators: they are taken
    as a record of operations, every call is logged with the arguments the
    code passes, and a Python exception is an explicit [Raise] result.
    Array entries are float32 values with their infinities and NaN. *)

From Stdlib Require Import QArith Qminmax Qabs Qround ZArith Lia Lqa List.
From stdpp Require Import base strings gmap.
Import ListNotations.

Local Open Scope Q_scope.

(** ** Array values

    The arrays of the pipeline hold single-precision floats.  A value is
    a finite number, an infinity or NaN.  Finite results are kept exact
    (rounding inside the float32 range is not modelled); a result beyond
    the range becomes an infinity, and infinities and NaN propagate as in
    IEEE 754 and numpy. *)
Inductive float32 :=
| Fin (q : Q)
| PInf
| NInf
| NaN.

(** The largest finite float32, [(2 - 2^-23) * 2^127]. *)
Definition float32_max : Q := 340282346638528859811704183484516925440.

Definition overflow (q : Q) : float32 :=
  if Qle_bool (Qabs q) float32_max then Fin q
  else if Qle_bool 0 q then PInf else NInf.

(** [np.abs]. *)
Definition fabs (x : float32) : float32 :=
  match x with
  | Fin q => Fin (Qabs q)
  | PInf | NInf => PInf
  | NaN => NaN
  end.

(** [np.square]. *)
Definition fsquare (x : float32) : float32 :=
  match x with
  | Fin q => overflow (q * q)
  | PInf | NInf => PInf
  | NaN => NaN
  end.

(** [x ** n] for an integer [n]. *)
Definition fpow (x : float32) (n : Z) : float32 :=
  if (n =? 0)%Z then Fin 1
  else
    match x with
    | Fin q => if (n <? 0)%Z && Qeq_bool q 0 then PInf else overflow (q ^ n)
    | PInf => if (0 <? n)%Z then PInf else Fin 0
    | NInf => if (0 <? n)%Z then (if Z.even n then PInf else NInf) else Fin 0
    | NaN => NaN
    end.

(** [np.maximum]: NaN if either argument is. *)
Definition fmaximum (x y : float32) : float32 :=
  match x, y with
  | NaN, _ | _, NaN => NaN
  | PInf, _ | _, PInf => PInf
  | NInf, z | z, NInf => z
  | Fin a, Fin b => Fin (Qmax a b)
  end.

(** [np.log10], for a logarithm [log10] on the positive rationals. *)
Definition flog10 (log10 : Q -> Q) (x : float32) : float32 :=
  match x with
  | Fin q => if Qle_bool q 0
             then (if Qeq_bool q 0 then NInf else NaN)
             else Fin (log10 q)
  | PInf => PInf
  | NInf | NaN => NaN
  end.

(** [c * x] for a finite scalar [c]. *)
Definition fscale (c : Q) (x : float32) : float32 :=
  match x with
  | Fin q => overflow (c * q)
  | PInf => if Qeq_bool c 0 then NaN else if Qle_bool 0 c then PInf else NInf
  | NInf => if Qeq_bool c 0 then NaN else if Qle_bool 0 c then NInf else PInf
  | NaN => NaN
  end.

(** [x - y]: infinity minus the same infinity is NaN. *)
Definition fsub (x y : float32) : float32 :=
  match x, y with
  | NaN, _ | _, NaN => NaN
  | PInf, PInf | NInf, NInf => NaN
  | PInf, _ | _, NInf => PInf
  | NInf, _ | _, PInf => NInf
  | Fin a, Fin b => overflow (a - b)
  end.

(** ** Data *)

(** Python float scalars are modelled by rationals, Python ints by [Z]. *)
Abbreviation samples := (list float32).
Abbreviation matrix := (list (list float32)).
Abbreviation complex := (float32 * float32)%type.
Abbreviation cmatrix := (list (list complex)).

(** A Python exception: its class name and its message. *)
Record exn := Exn { exn_class : string; exn_msg : string }.

Inductive result (A : Type) : Type :=
| Ok (a : A)
| Raise (e : exn).
Arguments Ok {A} a.
Arguments Raise {A} e.

(** What a call can observe and change outside its arguments: the files on
    storage and the module-level (shared) state of the process. *)
Record world := World {
  files : gmap string (list Byte.byte);
  globals : gmap string Z
}.

(** The [ref] argument of [amplitude_to_db]: a scalar or a callable. *)
Inductive ref_arg :=
| RefValue (r : Q)
| RefCallable (f : matrix -> result float32).

(** ** numpy *)

Definition ValueError (msg : string) : exn := Exn "ValueError" msg.

(** [np.amax]: the maximum over all entries, NaN if an entry is NaN;
    numpy raises on a zero-size array. *)
Definition np_amax (m : matrix) : result float32 :=
  match concat m with
  | [] => Raise (ValueError "zero-size array to reduction operation maximum which has no identity")
  | x :: xs => Ok (fold_left fmaximum xs x)
  end.

(** [m ** n] on an array: element-wise power. *)
Definition np_pow (m : matrix) (n : Z) : matrix :=
  map (map (fun x => fpow x n)) m.

(** ** Collaborators and the call log *)

Inductive event :=
| EvLoad (path : string) (sr : option Z) (mono : bool) (offset duration : Q)
| EvCqt (y : samples) (sr hop_length : Z) (fmin : option Q)
        (n_bins bins_per_octave : Z)
| EvMagphase (D : cmatrix)
| EvAmplitudeToDb (S : matrix) (ref : ref_arg)
| EvCqtLim (S : matrix).

Inductive outcome :=
| Returned
| Raised (e : exn).

Abbreviation trace := (list (event * outcome)).

(** The operations the function's docstring names.  Each one may read and
    change the world and may raise. *)
Record Collaborators := {
  librosa_load : string -> option Z -> bool -> Q -> Q ->
                 world -> world * result (samples * Z);
  librosa_cqt : samples -> Z -> Z -> option Q -> Z -> Z ->
                world -> world * result cmatrix;
  librosa_magphase : cmatrix -> world -> world * result (matrix * cmatrix);
  librosa_amplitude_to_db : matrix -> ref_arg ->
                            world -> world * result matrix;
  cqt_lim : matrix -> world -> world * result matrix
}.

(** ** The monad of a Python function body: world, call log, exceptions *)

Definition py (A : Type) : Type := world * trace -> world * trace * result A.

#[global] Instance py_ret : MRet py := fun A a s => (s, Ok a).

#[global] Instance py_bind : MBind py := fun A B k m s =>
  match m s with
  | (s', Ok a) => k a s'
  | (s', Raise e) => (s', Raise e)
  end.

Definition outcome_of {A} (r : result A) : outcome :=
  match r with
  | Ok _ => Returned
  | Raise e => Raised e
  end.

(** A collaborator call: run it on the current world and log it. *)
Definition invoke {A} (ev : event) (f : world -> world * result A) : py A :=
  fun '(w, tr) =>
    let '(w', r) := f w in (w', tr ++ [(ev, outcome_of r)], r).

(** ** The function *)

(** The default of the [sample_rate] parameter: what a caller who leaves
    it out passes. *)
Definition sample_rate_default : Z := 48000.

Section Pipeline.
Variable C : Collaborators.

Definition load_q_transform_audio_file
    (audio_filepath : string) (start_time_s duration_s : Q)
    (sample_rate : Z) : py matrix :=
  '(data, sr) ← invoke
      (EvLoad audio_filepath None true start_time_s duration_s)
      (librosa_load C audio_filepath None true start_time_s duration_s);
  CQT ← invoke
      (EvCqt data sample_rate 1024 None 96 12)
      (librosa_cqt C data sample_rate 1024 None 96 12);
  mp ← invoke (EvMagphase CQT) (librosa_magphase C CQT);
  let CQT_mag := np_pow (fst mp) 4 in
  CQTdB ← invoke
      (EvAmplitudeToDb CQT_mag (RefCallable np_amax))
      (librosa_amplitude_to_db C CQT_mag (RefCallable np_amax));
  mret CQTdB.

(** A call from a fresh log. *)
Definition run (audio_filepath : string) (start_time_s duration_s : Q)
    (sample_rate : Z) (w : world) : world * trace * result matrix :=
  load_q_transform_audio_file audio_filepath start_time_s duration_s
    sample_rate (w, []).
End Pipeline.

(** ** The library's decibel conversion

    [librosa.core.amplitude_to_db] is not part of the repository.  Its
    documented computation is written out here on float32 arrays, with
    the base-10 logarithm of a positive finite number as a parameter; the
    function under study only chooses its arguments ([ref=np.amax],
    defaults for the rest). *)

#[global] Instance result_ret : MRet result := fun A a => Ok a.

#[global] Instance result_bind : MBind result := fun A B k r =>
  match r with
  | Ok a => k a
  | Raise e => Raise e
  end.

Module Librosa.
Definition ParameterError (msg : string) : exn := Exn "ParameterError" msg.

(** Defaults of [amplitude_to_db]. *)
Definition amin_default : Q := 1 # 100000.
Definition top_db_default : Q := 80.

Section Decibel.
Variable log10 : Q -> Q.

Definition power_to_db (S : matrix) (ref : float32) (amin : Q)
    (top_db : option Q) : result matrix :=
  if Qle_bool amin 0
  then Raise (ParameterError "amin must be strictly positive")
  else
    let ref_value := fabs ref in
    let log_spec :=
      map (map (fun s =>
                  fsub (fscale 10 (flog10 log10 (fmaximum (Fin amin) s)))
                       (fscale 10 (flog10 log10
                                     (fmaximum (Fin amin) ref_value))))) S in
    match top_db with
    | None => Ok log_spec
    | Some t =>
        if negb (Qle_bool 0 t)
        then Raise (ParameterError "top_db must be non-negative")
        else
          mx ← np_amax log_spec;
          Ok (map (map (fun s => fmaximum s (fsub mx (Fin t)))) log_spec)
    end.

Definition amplitude_to_db (S : matrix) (ref : ref_arg) : result matrix :=
  let magnitude := map (map fabs) S in
  ref_value ← match ref with
              | RefCallable f => f magnitude
              | RefValue r => Ok (Fin (Qabs r))
              end;
  let power := map (map fsquare) magnitude in
  power_to_db power (fpow ref_value 2) (amin_default ^ 2)
    (Some top_db_default).
End Decibel.
End Librosa.

(** The same computation on exact rationals, with [ref=np.amax]: what the
    float32 computation amounts to as long as every value stays finite
    (lemma [amplitude_to_db_exact] below).  It is used in proofs only. *)
Module Exact.
Definition amax (m : list (list Q)) : result Q :=
  match concat m with
  | [] => Raise (ValueError "zero-size array to reduction operation maximum which has no identity")
  | x :: xs => Ok (fold_left Qmax xs x)
  end.

Section Decibel.
Variable log10 : Q -> Q.

Definition power_to_db (S : list (list Q)) (ref amin top_db : Q)
    : result (list (list Q)) :=
  let log_spec :=
    map (map (fun s => 10 * log10 (Qmax amin s)
                       - 10 * log10 (Qmax amin (Qabs ref)))) S in
  mx ← amax log_spec;
  Ok (map (map (fun s => Qmax s (mx - top_db))) log_spec).

Definition amplitude_to_db (S : list (list Q)) : result (list (list Q)) :=
  let magnitude := map (map Qabs) S in
  ref_value ← amax magnitude;
  let power := map (map (fun x => x * x)) magnitude in
  power_to_db power (ref_value ^ 2) (Librosa.amin_default ^ 2)
    Librosa.top_db_default.
End Decibel.
End Exact.

(** A matrix of finite values. *)
Definition lift (m : list (list Q)) : matrix := map (map Fin) m.

(** The squares that [amplitude_to_db] takes of the entries of [S] are
    all finite: no entry is infinite or NaN and no square overflows. *)
Definition power_is_finite (S : matrix) : Prop :=
  forall s, In s (concat S) -> exists p, fsquare (fabs s) = Fin p.

Definition is_fin (x : float32) : bool :=
  match x with
  | Fin _ => true
  | _ => false
  end.

Definition is_nan (x : float32) : bool :=
  match x with
  | NaN => true
  | _ => false
  end.

(** The finite value of an entry (0 for an infinity or NaN). *)
Definition fval (x : float32) : Q :=
  match x with
  | Fin q => q
  | _ => 0
  end.

(** A logarithm stays within the range of the true one on the arguments
    the conversion gives it: between [amin^2] and the float32 maximum. *)
Definition log10_in_range (log10 : Q -> Q) : Prop :=
  forall x, Librosa.amin_default ^ 2 <= x -> x <= float32_max ->
    -(10) <= log10 x /\ log10 x <= 39.

(** ** Reading the call log *)

Inductive collaborator := KLoad | KCqt | KMagphase | KAmplitudeToDb | KCqtLim.

Definition kind (ev : event) : collaborator :=
  match ev with
  | EvLoad _ _ _ _ _ => KLoad
  | EvCqt _ _ _ _ _ _ => KCqt
  | EvMagphase _ => KMagphase
  | EvAmplitudeToDb _ _ => KAmplitudeToDb
  | EvCqtLim _ => KCqtLim
  end.

(** The kinds of calls of a log, in order. *)
Definition kinds (tr : trace) : list collaborator := map (fun c => kind c.1) tr.

(** ** A concrete set of collaborators, for running the function

    Small stand-ins with the shapes of the real ones: an audio file is a
    sample rate followed by its samples, the transform yields [n_bins]
    rows of [1 + len(y) // hop_length] frames, and the limiter clips to
    [-10, 0] dB. *)
Module Demo.
Definition byte_val (b : Byte.byte) : Z := Z.of_N (Byte.to_N b).

Definition FileNotFoundError (msg : string) : exn :=
  Exn "FileNotFoundError" msg.

(** A monotone stand-in for the logarithm: three tenths of the binary
    logarithm of the integer part of [10^10 * x], shifted so that 1 goes
    to 0. *)
Definition log10 (x : Q) : Q :=
  (inject_Z (Z.log2 (Qfloor (x * 10000000000))) - 33) * (3 # 10).

Definition load (path : string) (sr : option Z) (mono : bool)
    (offset duration : Q) (w : world) : world * result (samples * Z) :=
  match files w !! path with
  | Some (rate :: body) =>
      let native := (1000 * byte_val rate)%Z in
      let first := Z.to_nat (Qfloor (offset * inject_Z native)) in
      let count := Z.to_nat (Qfloor (duration * inject_Z native)) in
      (w, Ok (firstn count (skipn first
                (map (fun b => Fin (inject_Z (byte_val b) / 255)) body)),
              native))
  | Some [] => (w, Raise (Exn "NoBackendError" path))
  | None => (w, Raise (FileNotFoundError path))
  end.

Definition cqt (y : samples) (sr hop_length : Z) (fmin : option Q)
    (n_bins bins_per_octave : Z) (w : world) : world * result cmatrix :=
  if (hop_length <=? 0)%Z
  then (w, Raise (Librosa.ParameterError "hop_length must be positive"))
  else
    let frames := Z.to_nat (1 + Z.of_nat (length y) / hop_length) in
    (w, Ok (map (fun k =>
               map (fun t =>
                      (fscale (1 / inject_Z (Z.of_nat (S k)))
                         (nth (t * Z.to_nat hop_length) y (Fin 0)),
                       Fin 0))
                   (seq 0 frames))
             (seq 0 (Z.to_nat n_bins)))).

(** The larger of the two parts in absolute value: the modulus when one
    part is 0, as in the output of [cqt] above. *)
Definition magphase (D : cmatrix) (w : world)
    : world * result (matrix * cmatrix) :=
  (w, Ok (map (map (fun z => fmaximum (fabs (fst z)) (fabs (snd z)))) D, D)).

Definition amplitude_to_db (S : matrix) (ref : ref_arg) (w : world)
    : world * result matrix :=
  (w, Librosa.amplitude_to_db log10 S ref).

Definition clip (S : matrix) (w : world) : world * result matrix :=
  (w, Ok (map (map (fun s => match s with
                             | Fin q => Fin (Qmin 0 (Qmax q (-10)))
                             | PInf => Fin 0
                             | NInf => Fin (-10)
                             | NaN => NaN
                             end)) S)).

Definition collaborators : Collaborators := {|
  librosa_load := load;
  librosa_cqt := cqt;
  librosa_magphase := magphase;
  librosa_amplitude_to_db := amplitude_to_db;
  cqt_lim := clip
|}.

(** A file of 4 samples at 1000 Hz, and nothing else. *)
Definition tone : list Byte.byte :=
  [Byte.x01; Byte.xff; Byte.x80; Byte.x40; Byte.x01].

Definition disk : world :=
  World {[ "tone.wav" := tone ]} ∅.

(** The same file next to another one, with some shared state set. *)
Definition busy_disk : world :=
  World {[ "tone.wav" := tone; "noise.wav" := [Byte.x02; Byte.x10] ]}
        {[ "calls" := 7%Z ]}.

(** The stages of
    [load_q_transform_audio_file("tone.wav", 0, 0.004, 48000)]. *)
Definition segment : samples :=
  Eval vm_compute in
    match (load "tone.wav" None true 0 (4 # 1000) disk).2 with
    | Ok (data, _) => data
    | Raise _ => []
    end.

Definition transform : cmatrix :=
  Eval vm_compute in
    match (cqt segment 48000 1024 None 96 12 disk).2 with
    | Ok D => D
    | Raise _ => []
    end.

Definition magnitude : matrix :=
  Eval vm_compute in
    match (magphase transform disk).2 with
    | Ok (mag, _) => mag
    | Raise _ => []
    end.

Definition spectrogram : matrix :=
  Eval vm_compute in
    match (run collaborators "tone.wav" 0 (4 # 1000) 48000 disk).2 with
    | Ok M => M
    | Raise _ => []
    end.

(** The stages of the call that starts one millisecond into the file,
    [load_q_transform_audio_file("tone.wav", 0.001, 0.003, 48000)]: its
    loudest bin has magnitude 128/255. *)
Definition late_segment : samples :=
  Eval vm_compute in
    match (load "tone.wav" None true (1 # 1000) (3 # 1000) disk).2 with
    | Ok (data, _) => data
    | Raise _ => []
    end.

Definition late_transform : cmatrix :=
  Eval vm_compute in
    match (cqt late_segment 48000 1024 None 96 12 disk).2 with
    | Ok D => D
    | Raise _ => []
    end.

Definition late_magnitude : matrix :=
  Eval vm_compute in
    match (magphase late_transform disk).2 with
    | Ok (mag, _) => mag
    | Raise _ => []
    end.

Definition late_spectrogram : matrix :=
  Eval vm_compute in
    match (run collaborators "tone.wav" (1 # 1000) (3 # 1000) 48000
             disk).2 with
    | Ok M => M
    | Raise _ => []
    end.

(** *** A file whose samples are far outside [-1, 1]

    The same collaborators with a loader that delivers the samples
    multiplied by [2^20], as a float file that was never normalised. *)
Definition loud_load (path : string) (sr : option Z) (mono : bool)
    (offset duration : Q) (w : world) : world * result (samples * Z) :=
  match load path sr mono offset duration w with
  | (w', Ok (y, rate)) => (w', Ok (map (fscale 1048576) y, rate))
  | (w', Raise e) => (w', Raise e)
  end.

Definition loud : Collaborators := {|
  librosa_load := loud_load;
  librosa_cqt := cqt;
  librosa_magphase := magphase;
  librosa_amplitude_to_db := amplitude_to_db;
  cqt_lim := clip
|}.

Definition loud_segment : samples :=
  Eval vm_compute in
    match (loud_load "tone.wav" None true 0 (4 # 1000) disk).2 with
    | Ok (data, _) => data
    | Raise _ => []
    end.

Definition loud_spectrogram : matrix :=
  Eval vm_compute in
    match (run loud "tone.wav" 0 (4 # 1000) 48000 disk).2 with
    | Ok M => M
    | Raise _ => []
    end.

(** *** A loader that keeps a cache on disk

    The same collaborators with a loader that, besides reading the file,
    writes an index file of its own. *)
Definition cache_file : string := ".cache/index".

Definition caching_load (path : string) (sr : option Z) (mono : bool)
    (offset duration : Q) (w : world) : world * result (samples * Z) :=
  (World (<[cache_file := [Byte.x01]]> (files w)) (globals w),
   (load path sr mono offset duration w).2).

Definition caching : Collaborators := {|
  librosa_load := caching_load;
  librosa_cqt := cqt;
  librosa_magphase := magphase;
  librosa_amplitude_to_db := amplitude_to_db;
  cqt_lim := clip
|}.

(** *** Collaborators one of which raises *)
Definition boom : exn := Exn "RuntimeError" "boom".

Definition failing (k : collaborator) : Collaborators := {|
  librosa_load p sr m o d w :=
    match k with KLoad => (w, Raise boom) | _ => load p sr m o d w end;
  librosa_cqt y sr h f n b w :=
    match k with KCqt => (w, Raise boom) | _ => cqt y sr h f n b w end;
  librosa_magphase D w :=
    match k with KMagphase => (w, Raise boom) | _ => magphase D w end;
  librosa_amplitude_to_db S r w :=
    match k with
    | KAmplitudeToDb => (w, Raise boom)
    | _ => amplitude_to_db S r w
    end;
  cqt_lim := clip
|}.
End Demo.

(** ** The ways a call can go *)

(** The ways a call of the function can go: the loader, the transform or
    the separator raises and the call ends there, or all four
    collaborators are called and the call ends as the decibel conversion
    does. *)
Section Runs.
Variable C : Collaborators.
Variables (audio_filepath : string) (start_time_s duration_s : Q).
Variable sample_rate : Z.

Definition ev_load : event :=
  EvLoad audio_filepath None true start_time_s duration_s.
Definition ev_cqt (data : samples) : event :=
  EvCqt data sample_rate 1024 None 96 12.
Definition ev_db (mag : matrix) : event :=
  EvAmplitudeToDb (np_pow mag 4) (RefCallable np_amax).

Inductive runs (w : world) : world * trace * result matrix -> Prop :=
| RunLoadRaises w1 e :
    librosa_load C audio_filepath None true start_time_s duration_s w
      = (w1, Raise e) ->
    runs w (w1, [(ev_load, Raised e)], Raise e)
| RunCqtRaises w1 data sr w2 e :
    librosa_load C audio_filepath None true start_time_s duration_s w
      = (w1, Ok (data, sr)) ->
    librosa_cqt C data sample_rate 1024 None 96 12 w1 = (w2, Raise e) ->
    runs w (w2, [(ev_load, Returned); (ev_cqt data, Raised e)], Raise e)
| RunMagphaseRaises w1 data sr w2 CQT w3 e :
    librosa_load C audio_filepath None true start_time_s duration_s w
      = (w1, Ok (data, sr)) ->
    librosa_cqt C data sample_rate 1024 None 96 12 w1 = (w2, Ok CQT) ->
    librosa_magphase C CQT w2 = (w3, Raise e) ->
    runs w (w3, [(ev_load, Returned); (ev_cqt data, Returned);
                 (EvMagphase CQT, Raised e)], Raise e)
| RunToDb w1 data sr w2 CQT w3 mag phase w4 r :
    librosa_load C audio_filepath None true start_time_s duration_s w
      = (w1, Ok (data, sr)) ->
    librosa_cqt C data sample_rate 1024 None 96 12 w1 = (w2, Ok CQT) ->
    librosa_magphase C CQT w2 = (w3, Ok (mag, phase)) ->
    librosa_amplitude_to_db C (np_pow mag 4) (RefCallable np_amax) w3
      = (w4, r) ->
    runs w (w4, [(ev_load, Returned); (ev_cqt data, Returned);
                 (EvMagphase CQT, Returned); (ev_db mag, outcome_of r)], r).

End Runs.

(** ** Contracts of the collaborators *)

(** Every collaborator call keeps the relation [R] between the world
    before and the world after it: a bound on what the collaborators
    change (nothing at all, only cache files, ...). *)
Record Respects (R : world -> world -> Prop) (C : Collaborators) : Prop := {
  load_respects : ∀ p sr m o d w, R w (librosa_load C p sr m o d w).1;
  cqt_respects : ∀ y sr h f n b w, R w (librosa_cqt C y sr h f n b w).1;
  magphase_respects : ∀ D w, R w (librosa_magphase C D w).1;
  amplitude_to_db_respects :
    ∀ S r w, R w (librosa_amplitude_to_db C S r w).1
}.

(** Nothing changes but the loader's cache file. *)
Definition only_cache_changes (w w' : world) : Prop :=
  globals w' = globals w
  ∧ ∀ p, p ≠ Demo.cache_file → files w' !! p = files w !! p.

(** The loader's answer depends on the world only through the file it is
    asked for; the other collaborators answer from their arguments. *)
Record Deterministic (C : Collaborators) : Prop := {
  load_reads_its_file :
    ∀ p sr m o d w w', files w !! p = files w' !! p →
      (librosa_load C p sr m o d w).2 = (librosa_load C p sr m o d w').2;
  cqt_of_arguments :
    ∀ y sr h f n b w w',
      (librosa_cqt C y sr h f n b w).2 = (librosa_cqt C y sr h f n b w').2;
  magphase_of_arguments :
    ∀ D w w', (librosa_magphase C D w).2 = (librosa_magphase C D w').2;
  amplitude_to_db_of_arguments :
    ∀ S r w w',
      (librosa_amplitude_to_db C S r w).2
      = (librosa_amplitude_to_db C S r w').2
}.

(** The collaborator's decibel conversion is the library's, for some
    monotone logarithm. *)
Record DecibelContract (C : Collaborators) (log10 : Q → Q) : Prop := {
  log10_monotone : ∀ x y, 0 < x → x <= y → log10 x <= log10 y;
  amplitude_to_db_computes :
    ∀ S ref w,
      (librosa_amplitude_to_db C S ref w).2
      = Librosa.amplitude_to_db log10 S ref
}.

(** What the library documents about shapes: the transform returns
    [n_bins] rows of [1 + len(y) // hop_length] frames; magnitude/phase
    separation and decibel conversion keep the shape of their input. *)
Record ShapeContract (C : Collaborators) : Prop := {
  cqt_shape :
    ∀ y sr hop fmin n bpo w w' D,
      librosa_cqt C y sr hop fmin n bpo w = (w', Ok D) →
      length D = Z.to_nat n
      ∧ Forall (λ row, Z.of_nat (length row)
                       = (1 + Z.of_nat (length y) / hop)%Z) D;
  magphase_shape :
    ∀ D w w' mag phase,
      librosa_magphase C D w = (w', Ok (mag, phase)) →
      map length mag = map length D;
  amplitude_to_db_shape :
    ∀ S ref w w' S',
      librosa_amplitude_to_db C S ref w = (w', Ok S') →
      map length S' = map length S
}.

(** ** Variations of the collaborators

    The function binds two values it never uses: the rate reported by the
    loader ([sr]) and the phase part of [librosa.magphase]'s pair.  These
    wrappers change exactly those two values. *)

Definition with_reported_rate (f : Z -> Z) (C : Collaborators)
    : Collaborators := {|
  librosa_load p sr m o d w :=
    match librosa_load C p sr m o d w with
    | (w', Ok (y, rate)) => (w', Ok (y, f rate))
    | (w', Raise e) => (w', Raise e)
    end;
  librosa_cqt := librosa_cqt C;
  librosa_magphase := librosa_magphase C;
  librosa_amplitude_to_db := librosa_amplitude_to_db C;
  cqt_lim := cqt_lim C
|}.

Definition with_phase (g : cmatrix -> cmatrix) (C : Collaborators)
    : Collaborators := {|
  librosa_load := librosa_load C;
  librosa_cqt := librosa_cqt C;
  librosa_magphase D w :=
    match librosa_magphase C D w with
    | (w', Ok (mag, phase)) => (w', Ok (mag, g phase))
    | (w', Raise e) => (w', Raise e)
    end;
  librosa_amplitude_to_db := librosa_amplitude_to_db C;
  cqt_lim := cqt_lim C
|}.

(** One entry of the result of [Exact.amplitude_to_db], as a function of
    the entry [s] it comes from: [R] is the reference magnitude and [cap]
    the lower bound that [top_db] sets. *)
Definition db_entry (log10 : Q -> Q) (R cap s : Q) : Q :=
  Qmax (10 * log10 (Qmax (Librosa.amin_default ^ 2) (Qabs s * Qabs s))
        - 10 * log10 (Qmax (Librosa.amin_default ^ 2) (Qabs (R ^ 2)))) cap.

(** The fourth power of an array entry, case by case: a finite value
    whose fourth power fits stays finite, one whose fourth power does not
    fit becomes [+inf], infinities become [+inf] and NaN stays NaN. *)
Definition is_fourth_power_of (m s : float32) : Prop :=
  match m with
  | Fin q =>
      (Qabs (q * q * q * q) <= float32_max → ∃ p, s = Fin p ∧ p == q * q * q * q)
      ∧ (float32_max < Qabs (q * q * q * q) → s = PInf)
  | PInf | NInf => s = PInf
  | NaN => s = NaN
  end.

(** An array entry is not negative: it is [+inf], NaN or a finite value
    that is at least 0. *)
Definition not_negative (s : float32) : Prop :=
  match s with
  | Fin q => 0 <= q
  | PInf | NaN => True
  | NInf => False
  end.

(** * Properties *)

(** ** Every call goes one of these ways *)

Section Adequacy.
Variable C : Collaborators.
Variables (audio_filepath : string) (start_time_s duration_s : Q).
Variable sample_rate : Z.

Lemma run_runs (w : world) :
  runs C audio_filepath start_time_s duration_s sample_rate w
    (run C audio_filepath start_time_s duration_s sample_rate w).
Proof.
  unfold run, load_q_transform_audio_file, mbind, py_bind, invoke; simpl.
  destruct (librosa_load C audio_filepath None true start_time_s
              duration_s w) as [w1 [[data sr]|e]] eqn:Hload; simpl.
  2: { by apply RunLoadRaises. }
  destruct (librosa_cqt C data sample_rate 1024 None 96 12 w1)
    as [w2 [CQT|e]] eqn:Hcqt; simpl.
  2: { by eapply RunCqtRaises. }
  destruct (librosa_magphase C CQT w2) as [w3 [[mag phase]|e]] eqn:Hmp;
    simpl.
  2: { by eapply RunMagphaseRaises. }
  destruct (librosa_amplitude_to_db C (np_pow mag 4) (RefCallable np_amax)
              w3) as [w4 [M|e]] eqn:Hdb; simpl.
  - by apply (RunToDb C audio_filepath start_time_s duration_s sample_rate
            w w1 data sr w2 CQT w3 mag phase w4 (Ok M)).
  - by apply (RunToDb C audio_filepath start_time_s duration_s sample_rate
            w w1 data sr w2 CQT w3 mag phase w4 (Raise e)).
Qed.
End Adequacy.

(** ** What the function calls, and with what *)

Lemma Qsquare_nonneg (m : Q) : 0 <= m * m.
Proof.
  destruct m as [n d]. unfold Qle, Qmult; simpl.
  rewrite Z.mul_1_r. apply Z.square_nonneg.
Qed.

Lemma Qfourth_nonneg (q : Q) : 0 <= q * q * q * q.
Proof.
  assert (E : q * q * q * q == (q * q) * (q * q)) by ring.
  rewrite E. apply Qmult_le_0_compat; apply Qsquare_nonneg.
Qed.

Lemma overflow_fits (q : Q) : Qabs q <= float32_max → overflow q = Fin q.
Proof.
  intros H. unfold overflow. apply Qle_bool_iff in H. by rewrite H.
Qed.

Lemma overflow_positive (q : Q) :
  0 <= q → float32_max < q → overflow q = PInf.
Proof.
  intros H0 H. unfold overflow.
  destruct (Qle_bool (Qabs q) float32_max) eqn:E.
  - apply Qle_bool_iff in E. rewrite Qabs_pos in E by done. lra.
  - apply Qle_bool_iff in H0. by rewrite H0.
Qed.

Lemma fpow4_is_fourth_power (m : float32) : is_fourth_power_of m (fpow m 4).
Proof.
  destruct m as [q| | |]; try done.
  change (fpow (Fin q) 4) with (overflow (q * q * (q * q))).
  assert (E : q * q * (q * q) == q * q * q * q) by ring.
  pose proof (Qfourth_nonneg q) as H0.
  split.
  - intros H. exists (q * q * (q * q)). split; [|done].
    apply overflow_fits. by rewrite E.
  - intros H. apply overflow_positive; rewrite E; [done|].
    by rewrite Qabs_pos in H.
Qed.

Section Calls.
Variable C : Collaborators.
Variables (audio_filepath : string) (start_time_s duration_s : Q).
Variable sample_rate : Z.

Local Abbreviation call w :=
  (run C audio_filepath start_time_s duration_s sample_rate w).

(** The loader, as the function calls it. *)
Local Abbreviation loaded w :=
  (librosa_load C audio_filepath None true start_time_s duration_s w).

(** The transform, as the function calls it. *)
Local Abbreviation transformed data w :=
  (librosa_cqt C data sample_rate 1024 None 96 12 w).

(** The decibel conversion, as the function calls it. *)
Local Abbreviation converted mag w :=
  (librosa_amplitude_to_db C (np_pow mag 4) (RefCallable np_amax) w).

(** C3: every call starts by applying the loader to [audio_filepath] with
    [sr=None] (the file's native rate, no resampling), [mono=True],
    offset [start_time_s] and duration [duration_s], and it does so once.
    What that application does decides the call: if it raises, the call
    ends with its exception and its world; if it returns samples, these
    very samples are what the transform is applied to, in the world the
    loader left. *)
Theorem loads_native_mono_segment (w : world) :
  (∃ rest,
     (call w).1.2
       = (EvLoad audio_filepath None true start_time_s duration_s,
          outcome_of (loaded w).2) :: rest
     ∧ Forall (λ c, kind c.1 ≠ KLoad) rest)
  ∧ (∀ e, (loaded w).2 = Raise e →
       call w
       = ((loaded w).1,
          [(EvLoad audio_filepath None true start_time_s duration_s,
            Raised e)],
          Raise e))
  ∧ (∀ data sr, (loaded w).2 = Ok (data, sr) →
       (call w).1.2 !! 1%nat
       = Some (EvCqt data sample_rate 1024 None 96 12,
               outcome_of (transformed data (loaded w).1).2)).
Proof.
  destruct (run_runs C audio_filepath start_time_s duration_s sample_rate w)
    as [w1 e H1|w1 data sr w2 e H1 H2|w1 data sr w2 CQT w3 e H1 H2 H3
       |w1 data sr w2 CQT w3 mag phase w4 r H1 H2 H3 H4];
    rewrite H1; simpl.
  all: split; [eexists; split; [reflexivity|repeat constructor; discriminate]|].
  all: split; [intros e' He; by simplify_eq|].
  all: intros data' sr' Hd; simplify_eq; try rewrite H2; done.
Qed.

(** C2: once the samples are loaded, the transform is applied to exactly
    these samples with the caller's [sample_rate], [hop_length=1024],
    [fmin=None], [n_bins=96] and [bins_per_octave=12], whatever rate the
    loader reported; it is the second call of the log and the only call
    of the transform.  What that application does decides the call: if it
    raises, the call ends with its exception and its world; if it returns
    a matrix, that matrix is what the separator is applied to. *)
Theorem cqt_called_with_fixed_parameters
    (w w1 : world) (data : samples) (sr : Z)
    (Hload : loaded w = (w1, Ok (data, sr))) :
  (call w).1.2 !! 1%nat
  = Some (EvCqt data sample_rate 1024 None 96 12,
          outcome_of (transformed data w1).2)
  ∧ (∀ (i : nat) ev o,
       (call w).1.2 !! i = Some (ev, o) → kind ev = KCqt → i = 1%nat)
  ∧ (∀ e, (transformed data w1).2 = Raise e →
       call w
       = ((transformed data w1).1,
          [(EvLoad audio_filepath None true start_time_s duration_s,
            Returned);
           (EvCqt data sample_rate 1024 None 96 12, Raised e)],
          Raise e))
  ∧ (∀ CQT, (transformed data w1).2 = Ok CQT →
       (call w).1.2 !! 2%nat
       = Some (EvMagphase CQT,
               outcome_of (librosa_magphase C CQT (transformed data w1).1).2)).
Proof.
  destruct (run_runs C audio_filepath start_time_s duration_s sample_rate w)
    as [w1' e H1|w1' data' sr' w2 e H1 H2|w1' data' sr' w2 CQT w3 e H1 H2 H3
       |w1' data' sr' w2 CQT w3 mag phase w4 r H1 H2 H3 H4];
    rewrite Hload in H1; simplify_eq; rewrite H2; simpl.
  all: split; [done|].
  all: split;
    [intros i ev o Hi Hk;
     repeat (destruct i as [|i]; simpl in Hi; simplify_eq; try done)|].
  all: split; [intros e' He; by simplify_eq|].
  all: intros CQT' HC; simplify_eq; try rewrite H3; done.
Qed.

(** C4: the transform output goes to the magnitude/phase separator, only
    the magnitude part is kept, and the decibel conversion is applied to
    that magnitude with every entry raised to the 4th power: the call
    ends as this application does, with its result and its world. *)
Theorem magnitude_to_the_fourth
    (w w1 w2 w3 : world) (data : samples) (sr : Z) (CQT phase : cmatrix)
    (mag : matrix)
    (Hload : loaded w = (w1, Ok (data, sr)))
    (Hcqt : transformed data w1 = (w2, Ok CQT))
    (Hmp : librosa_magphase C CQT w2 = (w3, Ok (mag, phase))) :
  call w
  = ((converted mag w3).1,
     [(EvLoad audio_filepath None true start_time_s duration_s, Returned);
      (EvCqt data sample_rate 1024 None 96 12, Returned);
      (EvMagphase CQT, Returned);
      (EvAmplitudeToDb (np_pow mag 4) (RefCallable np_amax),
       outcome_of (converted mag w3).2)],
     (converted mag w3).2)
  ∧ Forall2 (Forall2 is_fourth_power_of) mag (np_pow mag 4).
Proof.
  split.
  - destruct (run_runs C audio_filepath start_time_s duration_s sample_rate w)
      as [w1' e H1|w1' data' sr' w2' e H1 H2
         |w1' data' sr' w2' CQT' w3' e H1 H2 H3
         |w1' data' sr' w2' CQT' w3' mag' phase' w4 r H1 H2 H3 H4];
      rewrite Hload in H1; simplify_eq;
      rewrite Hcqt in H2; simplify_eq;
      rewrite Hmp in H3; simplify_eq.
    by rewrite H4.
  - unfold np_pow. clear.
    induction mag as [|row mag' IH]; simpl; constructor; auto.
    clear. induction row as [|m row IH]; simpl; constructor; auto.
    apply fpow4_is_fourth_power.
Qed.

(** C8: when a collaborator raises as the function calls it, the call
    ends there with the very same exception and the world that
    collaborator left: the log holds the calls up to the failing one and
    nothing after it, each collaborator at most once (no retry, no
    fallback, no wrapping).  One statement per collaborator. *)
Theorem failure_propagates (w : world) (e : exn) :
  (∀ w1,
     loaded w = (w1, Raise e) →
     call w
     = (w1,
        [(EvLoad audio_filepath None true start_time_s duration_s,
          Raised e)],
        Raise e))
  ∧ (∀ w1 data sr w2,
       loaded w = (w1, Ok (data, sr)) →
       transformed data w1 = (w2, Raise e) →
       call w
       = (w2,
          [(EvLoad audio_filepath None true start_time_s duration_s,
            Returned);
           (EvCqt data sample_rate 1024 None 96 12, Raised e)],
          Raise e))
  ∧ (∀ w1 data sr w2 CQT w3,
       loaded w = (w1, Ok (data, sr)) →
       transformed data w1 = (w2, Ok CQT) →
       librosa_magphase C CQT w2 = (w3, Raise e) →
       call w
       = (w3,
          [(EvLoad audio_filepath None true start_time_s duration_s,
            Returned);
           (EvCqt data sample_rate 1024 None 96 12, Returned);
           (EvMagphase CQT, Raised e)],
          Raise e))
  ∧ (∀ w1 data sr w2 CQT w3 mag phase w4,
       loaded w = (w1, Ok (data, sr)) →
       transformed data w1 = (w2, Ok CQT) →
       librosa_magphase C CQT w2 = (w3, Ok (mag, phase)) →
       converted mag w3 = (w4, Raise e) →
       call w
       = (w4,
          [(EvLoad audio_filepath None true start_time_s duration_s,
            Returned);
           (EvCqt data sample_rate 1024 None 96 12, Returned);
           (EvMagphase CQT, Returned);
           (EvAmplitudeToDb (np_pow mag 4) (RefCallable np_amax), Raised e)],
          Raise e)).
Proof.
  repeat split.
  - intros w1 Hl.
    destruct (run_runs C audio_filepath start_time_s duration_s sample_rate
                w) as [? ? H1|? ? ? ? ? H1 H2|? ? ? ? ? ? ? H1 H2 H3
                      |? ? ? ? ? ? ? ? ? ? H1 H2 H3 H4];
      rewrite Hl in H1; by simplify_eq.
  - intros w1 data sr w2 Hl Hc.
    destruct (run_runs C audio_filepath start_time_s duration_s sample_rate
                w) as [? ? H1|? ? ? ? ? H1 H2|? ? ? ? ? ? ? H1 H2 H3
                      |? ? ? ? ? ? ? ? ? ? H1 H2 H3 H4];
      rewrite Hl in H1; simplify_eq; rewrite Hc in H2; by simplify_eq.
  - intros w1 data sr w2 CQT w3 Hl Hc Hm.
    destruct (run_runs C audio_filepath start_time_s duration_s sample_rate
                w) as [? ? H1|? ? ? ? ? H1 H2|? ? ? ? ? ? ? H1 H2 H3
                      |? ? ? ? ? ? ? ? ? ? H1 H2 H3 H4];
      rewrite Hl in H1; simplify_eq; rewrite Hc in H2; simplify_eq;
      rewrite Hm in H3; by simplify_eq.
  - intros w1 data sr w2 CQT w3 mag phase w4 Hl Hc Hm Hd.
    destruct (run_runs C audio_filepath start_time_s duration_s sample_rate
                w) as [? ? H1|? ? ? ? ? H1 H2|? ? ? ? ? ? ? H1 H2 H3
                      |? ? ? ? ? ? ? ? ? ? H1 H2 H3 H4];
      rewrite Hl in H1; simplify_eq; rewrite Hc in H2; simplify_eq;
      rewrite Hm in H3; simplify_eq; rewrite Hd in H4; by simplify_eq.
Qed.
End Calls.

(** ** Effects and determinism *)

Section Effects.
Variable C : Collaborators.
Variables (audio_filepath : string) (start_time_s duration_s : Q).
Variable sample_rate : Z.

Local Abbreviation call w :=
  (run C audio_filepath start_time_s duration_s sample_rate w).


(** C7: two calls with the same arguments, in worlds whose file at
    [audio_filepath] is the same, make the same calls and return the
    same result (the same matrix or the same exception). *)
Theorem same_file_same_result (HC : Deterministic C) (w w' : world)
    (Hfile : files w !! audio_filepath = files w' !! audio_filepath) :
  (call w).2 = (call w').2 ∧ (call w).1.2 = (call w').1.2.
Proof.
  destruct HC as [Hl Hc Hm Ha].
  pose proof (Hl audio_filepath None true start_time_s duration_s w w' Hfile)
    as E1.
  destruct (run_runs C audio_filepath start_time_s duration_s sample_rate w)
    as [w1 e H1|w1 data sr w2 e H1 H2|w1 data sr w2 CQT w3 e H1 H2 H3
       |w1 data sr w2 CQT w3 mag phase w4 r H1 H2 H3 H4];
    destruct (run_runs C audio_filepath start_time_s duration_s sample_rate
                w')
    as [v1 e' G1|v1 data' sr' v2 e' G1 G2|v1 data' sr' v2 CQT' v3 e' G1 G2 G3
       |v1 data' sr' v2 CQT' v3 mag' phase' v4 r' G1 G2 G3 G4];
    rewrite H1, G1 in E1; simpl in E1; simplify_eq; simpl; try done.
  all: pose proof (Hc data' sample_rate 1024%Z None 96%Z 12%Z w1 v1) as E2;
    rewrite H2, G2 in E2; simpl in E2; simplify_eq; try done.
  all: pose proof (Hm CQT' w2 v2) as E3;
    rewrite H3, G3 in E3; simpl in E3; simplify_eq; try done.
  pose proof (Ha (np_pow mag' 4) (RefCallable np_amax) w3 v3) as E4.
  rewrite H4, G4 in E4; simpl in E4; by simplify_eq.
Qed.
End Effects.

(** ** The decibel scale of the returned matrix *)

Lemma Qmax_choice (x y : Q) : Qmax x y = x ∨ Qmax x y = y.
Proof.
  unfold Qmax, GenericMinMax.gmax. destruct (x ?= y); auto.
Qed.

Lemma fold_Qmax_in (xs : list Q) (x : Q) : In (fold_left Qmax xs x) (x :: xs).
Proof.
  revert x. induction xs as [|y xs IH]; intros x; simpl; [auto|].
  destruct (IH (Qmax x y)) as [E|E]; [|auto].
  rewrite <- E. destruct (Qmax_choice x y) as [->| ->]; auto.
Qed.

Lemma fold_Qmax_upper (xs : list Q) (x y : Q) :
  In y (x :: xs) → y <= fold_left Qmax xs x.
Proof.
  revert x y. induction xs as [|z xs IH]; intros x y; simpl.
  - intros [->|[]]. apply Qle_refl.
  - intros [->|[->|H]].
    + apply Qle_trans with (Qmax y z); [apply Q.le_max_l|]. apply IH. by left.
    + apply Qle_trans with (Qmax x y); [apply Q.le_max_r|]. apply IH. by left.
    + apply IH. by right.
Qed.

Lemma amax_Ok (m : list (list Q)) (x : Q) :
  Exact.amax m = Ok x → In x (concat m) ∧ ∀ y, In y (concat m) → y <= x.
Proof.
  unfold Exact.amax. destruct (concat m) as [|z zs]; [done|].
  intros [= <-]. split; [apply fold_Qmax_in|apply fold_Qmax_upper].
Qed.

Lemma amax_inhabited (m : list (list Q)) (y : Q) :
  In y (concat m) → ∃ x, Exact.amax m = Ok x.
Proof.
  unfold Exact.amax. destruct (concat m) as [|z zs]; [done|]. by eexists.
Qed.

Lemma np_amax_inhabited (m : matrix) (y : float32) :
  In y (concat m) → ∃ x, np_amax m = Ok x.
Proof.
  unfold np_amax. destruct (concat m) as [|z zs]; [done|]. by eexists.
Qed.

Lemma concat_map_map {A B} (f : A → B) (m : list (list A)) :
  concat (map (map f) m) = map f (concat m).
Proof. symmetry. apply concat_map. Qed.

Lemma map_map_map {A B D} (f : A → B) (g : B → D) (m : list (list A)) :
  map (map g) (map (map f) m) = map (map (λ x, g (f x))) m.
Proof.
  rewrite map_map. apply map_ext. intros row. apply map_map.
Qed.

Lemma map_map_ext_in {A B} (f g : A → B) (m : list (list A)) :
  (∀ x, In x (concat m) → f x = g x) → map (map f) m = map (map g) m.
Proof.
  intros H. apply map_ext_in. intros row Hrow. apply map_ext_in.
  intros x Hx. apply H, in_concat. eauto.
Qed.

Section DecibelScale.
Variable log10 : Q → Q.
Hypothesis log10_mono : ∀ x y, 0 < x → x <= y → log10 x <= log10 y.

Local Abbreviation floor2 := (Librosa.amin_default ^ 2).

Lemma floor2_pos : 0 < floor2.
Proof. reflexivity. Qed.

(** One entry of [log_spec], for reference magnitude [R]. *)
Local Abbreviation rel R p :=
  (10 * log10 (Qmax floor2 p) - 10 * log10 (Qmax floor2 (Qabs (R ^ 2)))).

Lemma rel_nonpos (R m : Q) : 0 <= m → m <= R → rel R (m * m) <= 0.
Proof.
  intros H0 HR.
  assert (Hle : Qmax floor2 (m * m) <= Qmax floor2 (Qabs (R ^ 2))).
  { apply Q.max_le_compat_l. rewrite Qabs_pos.
    - simpl. apply Qmult_le_compat_nonneg; split; auto.
    - simpl. apply Qmult_le_0_compat; eapply Qle_trans; eauto. }
  assert (Hpos : 0 < Qmax floor2 (m * m)).
  { eapply Qlt_le_trans; [apply floor2_pos|apply Q.le_max_l]. }
  pose proof (log10_mono _ _ Hpos Hle). lra.
Qed.

Lemma rel_peak (R : Q) : 0 <= R → rel R (R * R) == 0.
Proof.
  intros H0. apply Qle_antisym; [by apply rel_nonpos; [|apply Qle_refl]|].
  assert (Hle : Qmax floor2 (Qabs (R ^ 2)) <= Qmax floor2 (R * R)).
  { apply Q.max_le_compat_l. rewrite Qabs_pos.
    - simpl. apply Qle_refl.
    - simpl. by apply Qmult_le_0_compat. }
  assert (Hpos : 0 < Qmax floor2 (Qabs (R ^ 2))).
  { eapply Qlt_le_trans; [apply floor2_pos|apply Q.le_max_l]. }
  pose proof (log10_mono _ _ Hpos Hle). lra.
Qed.

(** On exact rationals the conversion returns a matrix whose maximum is
    0 dB and whose entries all lie between -80 dB and 0 dB. *)
Lemma exact_amplitude_to_db_range (S M : list (list Q)) :
  Exact.amplitude_to_db log10 S = Ok M →
  ∃ mx, Exact.amax M = Ok mx ∧ mx == 0
        ∧ ∀ y, In y (concat M) → -(80) <= y ∧ y <= 0.
Proof.
  unfold Exact.amplitude_to_db, mbind, result_bind.
  destruct (Exact.amax (map (map Qabs) S)) as [R|e] eqn:HR; [|done].
  apply amax_Ok in HR as [HRin HRub].
  rewrite concat_map_map in HRin, HRub.
  apply in_map_iff in HRin as (s0 & Hs0 & Hs0in).
  assert (HR0 : 0 <= R) by (rewrite <- Hs0; apply Qabs_nonneg).
  unfold Exact.power_to_db, mbind, result_bind.
  rewrite !map_map_map.
  set (g := λ s : Q, rel R (Qabs s * Qabs s)).
  destruct (Exact.amax (map (map g) S)) as [mx|e] eqn:Hmx; [|done].
  intros [= <-]. rewrite map_map_map.
  apply amax_Ok in Hmx as [Hmxin Hmxub].
  rewrite concat_map_map in Hmxin, Hmxub.
  assert (Hg : ∀ s, In s (concat S) → g s <= 0).
  { intros s Hs. apply rel_nonpos; [apply Qabs_nonneg|].
    apply HRub, in_map, Hs. }
  assert (Hmx0 : mx == 0).
  { apply Qle_antisym.
    - apply in_map_iff in Hmxin as (s & <- & Hs). by apply Hg.
    - assert (Hpk : g s0 == 0) by (unfold g; rewrite Hs0; by apply rel_peak).
      rewrite <- Hpk. apply Hmxub, in_map, Hs0in. }
  assert (Hcap : mx - Librosa.top_db_default == -(80)).
  { rewrite Hmx0. reflexivity. }
  set (M := map (map (λ s, Qmax (g s) (mx - Librosa.top_db_default))) S).
  assert (Hrange : ∀ y, In y (concat M) → -(80) <= y ∧ y <= 0).
  { intros y Hy. unfold M in Hy. rewrite concat_map_map in Hy.
    apply in_map_iff in Hy as (s & <- & Hs). split.
    - rewrite <- Hcap. apply Q.le_max_r.
    - apply Q.max_lub; [by apply Hg|]. rewrite Hcap. done. }
  assert (Hne : In (Qmax (g s0) (mx - Librosa.top_db_default)) (concat M)).
  { unfold M. rewrite concat_map_map.
    apply (in_map (λ s, Qmax (g s) (mx - Librosa.top_db_default))), Hs0in. }
  destruct (amax_inhabited _ _ Hne) as [top Htop].
  exists top. split; [done|]. split; [|done].
  apply amax_Ok in Htop as [Htopin Htopub].
  apply Qle_antisym; [by apply Hrange|].
  eapply Qle_trans; [|apply Htopub, Hne].
  eapply Qle_trans; [|apply Q.le_max_l].
  assert (Hpk : g s0 == 0) by (unfold g; rewrite Hs0; by apply rel_peak).
  rewrite Hpk. apply Qle_refl.
Qed.
End DecibelScale.

(** ** The float32 conversion on values that stay finite *)

Lemma fold_fmaximum_Fin (xs : list Q) (x : Q) :
  fold_left fmaximum (map Fin xs) (Fin x) = Fin (fold_left Qmax xs x).
Proof.
  revert x. induction xs as [|y xs IH]; intros x; simpl; [done|]. apply IH.
Qed.

Lemma np_amax_lift (m : list (list Q)) :
  np_amax (lift m)
  = match Exact.amax m with Ok x => Ok (Fin x) | Raise e => Raise e end.
Proof.
  unfold np_amax, Exact.amax, lift. rewrite concat_map_map.
  destruct (concat m) as [|x xs]; simpl; [done|].
  by rewrite fold_fmaximum_Fin.
Qed.

Lemma small_fits (q : Q) : -(1000) <= q → q <= 1000 → overflow q = Fin q.
Proof.
  intros Hlo Hhi. apply overflow_fits. apply Qabs_Qle_condition.
  unfold float32_max. split; lra.
Qed.

Lemma flog10_positive (log10 : Q → Q) (x : Q) :
  0 < x → flog10 log10 (Fin x) = Fin (log10 x).
Proof.
  intros H. simpl. destruct (Qle_bool x 0) eqn:E; [|done].
  apply Qle_bool_iff in E. lra.
Qed.

Section Finite.
Variable log10 : Q → Q.
Hypothesis log10_range : log10_in_range log10.

Local Abbreviation floor2 := (Librosa.amin_default ^ 2).

Lemma log10_of_clamped (p : Q) :
  p <= float32_max →
  -(10) <= log10 (Qmax floor2 p) ∧ log10 (Qmax floor2 p) <= 39.
Proof.
  intros Hp. apply log10_range; [apply Q.le_max_l|].
  apply Q.max_lub; [|done]. unfold float32_max. by vm_compute.
Qed.

(** One entry of [log_spec] in float32, for a power [p] and a squared
    reference [r] that fit: the exact difference. *)
Lemma log_spec_entry (p r : Q) :
  p <= float32_max → r <= float32_max →
  fsub (fscale 10 (flog10 log10 (fmaximum (Fin floor2) (Fin p))))
       (fscale 10 (flog10 log10 (fmaximum (Fin floor2) (Fin r))))
  = Fin (10 * log10 (Qmax floor2 p) - 10 * log10 (Qmax floor2 r)).
Proof.
  intros Hp Hr.
  destruct (log10_of_clamped p Hp) as [Hp1 Hp2].
  destruct (log10_of_clamped r Hr) as [Hr1 Hr2].
  change (fmaximum (Fin floor2) (Fin p)) with (Fin (Qmax floor2 p)).
  change (fmaximum (Fin floor2) (Fin r)) with (Fin (Qmax floor2 r)).
  rewrite !flog10_positive
    by (eapply Qlt_le_trans; [apply floor2_pos|apply Q.le_max_l]).
  unfold fscale. rewrite !small_fits by lra.
  unfold fsub. rewrite small_fits by lra. done.
Qed.

Lemma log_spec_entry_bounds (p r : Q) :
  p <= float32_max → r <= float32_max →
  -(490) <= 10 * log10 (Qmax floor2 p) - 10 * log10 (Qmax floor2 r)
  ∧ 10 * log10 (Qmax floor2 p) - 10 * log10 (Qmax floor2 r) <= 490.
Proof.
  intros Hp Hr.
  destruct (log10_of_clamped p Hp) as [Hp1 Hp2].
  destruct (log10_of_clamped r Hr) as [Hr1 Hr2].
  split; lra.
Qed.

(** As long as no square overflows, the float32 conversion with
    [ref=np.amax] computes what the exact one does. *)
Lemma amplitude_to_db_exact (S0 : list (list Q)) :
  (∀ q, In q (concat S0) → Qabs q * Qabs q <= float32_max) →
  Librosa.amplitude_to_db log10 (lift S0) (RefCallable np_amax)
  = match Exact.amplitude_to_db log10 S0 with
    | Ok M0 => Ok (lift M0)
    | Raise e => Raise e
    end.
Proof.
  intros Hfit.
  unfold Librosa.amplitude_to_db, Exact.amplitude_to_db, mbind, result_bind.
  assert (Emag : map (map fabs) (lift S0) = lift (map (map Qabs) S0)).
  { unfold lift. by rewrite !map_map_map. }
  rewrite Emag, np_amax_lift.
  destruct (Exact.amax (map (map Qabs) S0)) as [R|e] eqn:HR; [|done].
  apply amax_Ok in HR as [HRin _]. rewrite concat_map_map in HRin.
  apply in_map_iff in HRin as (q0 & <- & Hq0).
  assert (Hrefsq : fpow (Fin (Qabs q0)) 2 = Fin (Qabs q0 ^ 2)).
  { change (fpow (Fin (Qabs q0)) 2) with (overflow (Qabs q0 * Qabs q0)).
    apply overflow_fits. rewrite Qabs_pos by apply Qsquare_nonneg.
    by apply Hfit. }
  rewrite Hrefsq.
  assert (Epow : map (map fsquare) (lift (map (map Qabs) S0))
                 = lift (map (map (λ x, x * x)) (map (map Qabs) S0))).
  { unfold lift. rewrite !map_map_map. apply map_map_ext_in.
    intros q Hq. simpl. apply overflow_fits.
    rewrite Qabs_pos by apply Qsquare_nonneg. by apply Hfit. }
  rewrite Epow.
  unfold Librosa.power_to_db, Exact.power_to_db, mbind, result_bind.
  change (Qle_bool floor2 0) with false.
  change (negb (Qle_bool 0 Librosa.top_db_default)) with false. cbv iota.
  change (fabs (Fin (Qabs q0 ^ 2))) with (Fin (Qabs (Qabs q0 ^ 2))).
  set (r := Qabs (Qabs q0 ^ 2)).
  assert (Hr : r <= float32_max).
  { unfold r. change (Qabs q0 ^ 2) with (Qabs q0 * Qabs q0).
    rewrite Qabs_pos by apply Qsquare_nonneg. by apply Hfit. }
  set (P := map (map (λ x, x * x)) (map (map Qabs) S0)).
  assert (HP : ∀ p, In p (concat P) → p <= float32_max).
  { intros p Hp. unfold P in Hp. rewrite map_map_map, concat_map_map in Hp.
    apply in_map_iff in Hp as (q & <- & Hq). by apply Hfit. }
  set (g := λ p : Q, 10 * log10 (Qmax floor2 p) - 10 * log10 (Qmax floor2 r)).
  assert (Elog : map (map (λ s,
                     fsub (fscale 10 (flog10 log10 (fmaximum (Fin floor2) s)))
                          (fscale 10 (flog10 log10
                                        (fmaximum (Fin floor2) (Fin r))))))
                   (lift P)
                 = lift (map (map g) P)).
  { unfold lift. rewrite !map_map_map. apply map_map_ext_in.
    intros p Hp. apply log_spec_entry; [by apply HP|done]. }
  rewrite Elog, np_amax_lift.
  destruct (Exact.amax (map (map g) P)) as [mx|e] eqn:Hmx; [|done].
  apply amax_Ok in Hmx as [Hmxin _]. rewrite concat_map_map in Hmxin.
  apply in_map_iff in Hmxin as (p & <- & Hp).
  destruct (log_spec_entry_bounds p r (HP p Hp) Hr) as [Hlo Hhi].
  fold (g p) in Hlo, Hhi.
  assert (Ecap : fsub (Fin (g p)) (Fin Librosa.top_db_default)
                 = Fin (g p - Librosa.top_db_default)).
  { unfold fsub. apply small_fits; unfold Librosa.top_db_default; lra. }
  rewrite Ecap. unfold lift. by rewrite !map_map_map.
Qed.
End Finite.

(** A matrix whose power is finite is a matrix of finite values whose
    squares fit. *)
Lemma power_is_finite_lift (S : matrix) :
  power_is_finite S →
  S = lift (map (map fval) S)
  ∧ ∀ q, In q (concat (map (map fval) S)) →
         Qabs q * Qabs q <= float32_max.
Proof.
  intros H.
  assert (Hs : ∀ s, In s (concat S) →
                 s = Fin (fval s)
                 ∧ Qabs (fval s) * Qabs (fval s) <= float32_max).
  { intros s Hin. destruct (H s Hin) as [p Hp].
    destruct s as [q| | |]; try done. split; [done|].
    simpl in Hp. unfold overflow in Hp.
    destruct (Qle_bool (Qabs (Qabs q * Qabs q)) float32_max) eqn:E.
    - apply Qle_bool_iff in E.
      by rewrite Qabs_pos in E by apply Qsquare_nonneg.
    - by destruct (Qle_bool 0 (Qabs q * Qabs q)). }
  split.
  - unfold lift. rewrite map_map_map.
    transitivity (map (map (λ s : float32, s)) S).
    + clear. induction S as [|row S IH]; simpl; [done|].
      by rewrite map_id, <- IH.
    + apply map_map_ext_in. intros s Hin. by apply Hs.
  - intros q Hq. rewrite concat_map_map in Hq.
    apply in_map_iff in Hq as (s & <- & Hin). by apply Hs.
Qed.

Lemma lift_entries (M0 : list (list Q)) (y : float32) :
  In y (concat (lift M0)) → ∃ q, y = Fin q ∧ In q (concat M0).
Proof.
  unfold lift. rewrite concat_map_map. intros Hy.
  apply in_map_iff in Hy as (q & <- & Hq). eauto.
Qed.

(** What a call returns once load, cqt and magphase have returned: the
    decibel conversion, applied with [ref=np.amax] to the fourth power of
    the magnitude; when no square overflows, this is the exact
    conversion of finite values. *)
Lemma returned_is_exact_decibel
    (C : Collaborators) (log10 : Q → Q) (HD : DecibelContract C log10)
    (Hrange : log10_in_range log10)
    (audio_filepath : string) (start_time_s duration_s : Q)
    (sample_rate : Z) (w w1 w2 w3 : world) (data : samples) (rate : Z)
    (CQT phase : cmatrix) (mag M : matrix)
    (Hload : librosa_load C audio_filepath None true start_time_s
               duration_s w = (w1, Ok (data, rate)))
    (Hcqt : librosa_cqt C data sample_rate 1024 None 96 12 w1
            = (w2, Ok CQT))
    (Hmp : librosa_magphase C CQT w2 = (w3, Ok (mag, phase)))
    (Hfinite : power_is_finite (np_pow mag 4))
    (Hok : (run C audio_filepath start_time_s duration_s sample_rate w).2
           = Ok M) :
  (librosa_amplitude_to_db C (np_pow mag 4) (RefCallable np_amax) w3).2
  = Ok M
  ∧ ∃ M0,
      M = lift M0
      ∧ Exact.amplitude_to_db log10 (map (map fval) (np_pow mag 4)) = Ok M0.
Proof.
  assert (Hconv : (librosa_amplitude_to_db C (np_pow mag 4)
                     (RefCallable np_amax) w3).2 = Ok M).
  { revert Hok.
    destruct (run_runs C audio_filepath start_time_s duration_s sample_rate
                w)
      as [w1' e H1|w1' data' sr w2' e H1 H2
         |w1' data' sr w2' CQT' w3' e H1 H2 H3
         |w1' data' sr w2' CQT' w3' mag' phase' w4 r H1 H2 H3 H4];
      rewrite Hload in H1; simplify_eq;
      rewrite Hcqt in H2; simplify_eq;
      rewrite Hmp in H3; simplify_eq; simpl.
    intros ->. by rewrite H4. }
  split; [done|].
  rewrite (amplitude_to_db_computes C log10 HD) in Hconv.
  destruct (power_is_finite_lift _ Hfinite) as [Elift Hfit].
  rewrite Elift, (amplitude_to_db_exact log10 Hrange _ Hfit) in Hconv.
  destruct (Exact.amplitude_to_db log10 (map (map fval) (np_pow mag 4)))
    as [M0|e]; [|done].
  exists M0. split; [by simplify_eq|done].
Qed.

(** C5, as amended: the conversion is applied with the matrix maximum as
    reference ([ref=np.amax]) and the call returns its result; whenever
    the squares it takes of the fourth-power magnitudes are finite
    float32 values, the maximum of the returned decibel matrix is 0 and
    every entry is a finite value that is at most 0.  This holds for a
    silent segment as well. *)
Theorem decibel_peak_is_zero
    (C : Collaborators) (log10 : Q → Q) (HD : DecibelContract C log10)
    (Hrange : log10_in_range log10)
    (audio_filepath : string) (start_time_s duration_s : Q)
    (sample_rate : Z) (w w1 w2 w3 : world) (data : samples) (rate : Z)
    (CQT phase : cmatrix) (mag M : matrix)
    (Hload : librosa_load C audio_filepath None true start_time_s
               duration_s w = (w1, Ok (data, rate)))
    (Hcqt : librosa_cqt C data sample_rate 1024 None 96 12 w1
            = (w2, Ok CQT))
    (Hmp : librosa_magphase C CQT w2 = (w3, Ok (mag, phase)))
    (Hfinite : power_is_finite (np_pow mag 4))
    (Hok : (run C audio_filepath start_time_s duration_s sample_rate w).2
           = Ok M) :
  (librosa_amplitude_to_db C (np_pow mag 4) (RefCallable np_amax) w3).2
  = Ok M
  ∧ ∃ mx,
      np_amax M = Ok (Fin mx) ∧ mx == 0
      ∧ ∀ y, In y (concat M) → ∃ q, y = Fin q ∧ q <= 0.
Proof.
  destruct (returned_is_exact_decibel C log10 HD Hrange audio_filepath
              start_time_s duration_s sample_rate w w1 w2 w3 data rate CQT
              phase mag M Hload Hcqt Hmp Hfinite Hok)
    as (Hconv & M0 & -> & HM0).
  split; [done|].
  destruct (exact_amplitude_to_db_range log10 (log10_monotone C log10 HD)
              _ _ HM0) as (mx & Hmx & H0 & Hall).
  exists mx. rewrite np_amax_lift, Hmx. split; [done|]. split; [done|].
  intros y Hy. apply lift_entries in Hy as (q & -> & Hq).
  exists q. split; [done|]. by apply Hall.
Qed.

(** C10, as amended: no range limiter runs, yet the conversion's default
    [top_db = 80] bounds the returned matrix whenever the squares the
    conversion takes are finite float32 values: every entry is then a
    finite value at least the maximum entry minus 80, and all entries lie
    in [-80, 0]. *)
Theorem top_db_bounds_returned_matrix
    (C : Collaborators) (log10 : Q → Q) (HD : DecibelContract C log10)
    (Hrange : log10_in_range log10)
    (audio_filepath : string) (start_time_s duration_s : Q)
    (sample_rate : Z) (w w1 w2 w3 : world) (data : samples) (rate : Z)
    (CQT phase : cmatrix) (mag M : matrix)
    (Hload : librosa_load C audio_filepath None true start_time_s
               duration_s w = (w1, Ok (data, rate)))
    (Hcqt : librosa_cqt C data sample_rate 1024 None 96 12 w1
            = (w2, Ok CQT))
    (Hmp : librosa_magphase C CQT w2 = (w3, Ok (mag, phase)))
    (Hfinite : power_is_finite (np_pow mag 4))
    (Hok : (run C audio_filepath start_time_s duration_s sample_rate w).2
           = Ok M) :
  (librosa_amplitude_to_db C (np_pow mag 4) (RefCallable np_amax) w3).2
  = Ok M
  ∧ ∃ mx,
      np_amax M = Ok (Fin mx)
      ∧ ∀ y, In y (concat M) →
             ∃ q, y = Fin q ∧ mx - 80 <= q ∧ -(80) <= q ∧ q <= 0.
Proof.
  destruct (returned_is_exact_decibel C log10 HD Hrange audio_filepath
              start_time_s duration_s sample_rate w w1 w2 w3 data rate CQT
              phase mag M Hload Hcqt Hmp Hfinite Hok)
    as (Hconv & M0 & -> & HM0).
  split; [done|].
  destruct (exact_amplitude_to_db_range log10 (log10_monotone C log10 HD)
              _ _ HM0) as (mx & Hmx & H0 & Hall).
  exists mx. rewrite np_amax_lift, Hmx. split; [done|].
  intros y Hy. apply lift_entries in Hy as (q & -> & Hq).
  exists q. split; [done|]. destruct (Hall q Hq) as [Hlo Hhi].
  split; [|done]. rewrite H0. exact Hlo.
Qed.

(** ** The shape of the returned matrix *)

Lemma map_length_map_map {A B} (f : A → B) (m : list (list A)) :
  map length (map (map f) m) = map length m.
Proof.
  rewrite map_map. apply map_ext. intros row. apply length_map.
Qed.

Lemma np_pow_shape (m : matrix) (n : Z) :
  map length (np_pow m n) = map length m.
Proof. apply map_length_map_map. Qed.

Lemma same_shape_rows {A B} (m : list (list A)) (m' : list (list B))
    (P : nat → Prop) :
  map length m = map length m' →
  length m = length m'
  ∧ (Forall (λ row, P (length row)) m' → Forall (λ row, P (length row)) m).
Proof.
  intros E. split.
  - by rewrite <- (length_map length m), E, length_map.
  - intros H. rewrite !List.Forall_forall in *. intros row Hrow.
    assert (Hin : In (length row) (map length m')).
    { rewrite <- E. apply in_map, Hrow. }
    apply in_map_iff in Hin as (row' & <- & Hrow'). by apply H.
Qed.

Lemma Qfloor_div_hop (x : Q) :
  Qfloor (x / 1024) = (Qfloor x / 1024)%Z.
Proof.
  destruct x as [n d]. unfold Qdiv, Qmult, Qinv; simpl.
  rewrite Z.mul_1_r, Pos2Z.inj_mul. symmetry. by apply Z.div_div.
Qed.

Section Shape.
Variable C : Collaborators.
Hypothesis HC : ShapeContract C.
Variables (audio_filepath : string) (start_time_s duration_s : Q).
Variable sample_rate : Z.

Local Abbreviation call w :=
  (run C audio_filepath start_time_s duration_s sample_rate w).

(** C6: when the loader delivers the whole requested span, that is
    [floor(duration_s * native_rate)] samples at the file's native rate,
    a successful call returns a matrix of exactly 96 rows, each of
    [floor(duration_s * native_rate / 1024) + 1] columns (so in
    particular within one frame of that number). *)
Theorem spectrogram_shape
    (w w1 : world) (data : samples) (native_rate : Z) (M : matrix)
    (Hload : librosa_load C audio_filepath None true start_time_s
               duration_s w = (w1, Ok (data, native_rate)))
    (Hspan : Z.of_nat (length data)
             = Qfloor (duration_s * inject_Z native_rate))
    (Hok : (call w).2 = Ok M) :
  length M = 96%nat
  ∧ Forall (λ row, Z.of_nat (length row)
                   = (Qfloor (duration_s * inject_Z native_rate / 1024)
                      + 1)%Z) M.
Proof.
  revert Hok.
  destruct (run_runs C audio_filepath start_time_s duration_s sample_rate w)
    as [w1' e H1|w1' data' sr w2 e H1 H2|w1' data' sr w2 CQT w3 e H1 H2 H3
       |w1' data' sr w2 CQT w3 mag phase w4 r H1 H2 H3 H4]; simpl; try done.
  intros ->. rewrite Hload in H1. simplify_eq.
  destruct (cqt_shape C HC _ _ _ _ _ _ _ _ _ H2) as [Hrows Hcols].
  pose proof (magphase_shape C HC _ _ _ _ _ H3) as Emag.
  pose proof (amplitude_to_db_shape C HC _ _ _ _ _ H4) as Edb.
  rewrite np_pow_shape, Emag in Edb.
  set (P := λ n : nat, Z.of_nat n
              = (Qfloor (duration_s * inject_Z sr / 1024) + 1)%Z).
  destruct (same_shape_rows M CQT P Edb) as [Elen Hall].
  split; [by rewrite Elen, Hrows|].
  apply Hall. eapply List.Forall_impl; [|exact Hcols].
  intros row Hrow. unfold P. rewrite Hrow, Hspan, Qfloor_div_hop. lia.
Qed.
End Shape.

(** ** The stand-in collaborators meet the contracts *)

Lemma librosa_amplitude_to_db_shape (log10 : Q → Q) (S S' : matrix)
    (ref : ref_arg) :
  Librosa.amplitude_to_db log10 S ref = Ok S' → map length S' = map length S.
Proof.
  unfold Librosa.amplitude_to_db, Librosa.power_to_db, mbind, result_bind.
  destruct (match ref with
            | RefValue r => Ok (Fin (Qabs r))
            | RefCallable f => f (map (map fabs) S)
            end) as [R|e]; [|done].
  change (Qle_bool (Librosa.amin_default ^ 2) 0) with false.
  change (negb (Qle_bool 0 Librosa.top_db_default)) with false. cbv iota.
  destruct (np_amax _) as [mx|e]; [|done].
  intros [= <-]. by rewrite !map_length_map_map.
Qed.

Lemma demo_log10_monotone (x y : Q) :
  x <= y → Demo.log10 x <= Demo.log10 y.
Proof.
  intros Hxy. unfold Demo.log10.
  assert (H : (Z.log2 (Qfloor (x * 10000000000))
               <= Z.log2 (Qfloor (y * 10000000000)))%Z).
  { apply Z.log2_le_mono, Qfloor_resp_le, Qmult_le_compat_r; done. }
  rewrite Zle_Qle in H. lra.
Qed.

Lemma demo_log10_in_range : log10_in_range Demo.log10.
Proof.
  intros x Hlo Hhi.
  pose proof (demo_log10_monotone _ _ Hlo) as H1.
  pose proof (demo_log10_monotone _ _ Hhi) as H2.
  assert (E1 : -(10) <= Demo.log10 (Librosa.amin_default ^ 2))
    by (by vm_compute).
  assert (E2 : Demo.log10 float32_max <= 39) by (by vm_compute).
  split; lra.
Qed.

Lemma demo_deterministic : Deterministic Demo.collaborators.
Proof.
  split; simpl; try done.
  - intros p sr m o d w w' E. unfold Demo.load. rewrite E.
    by destruct (files w' !! p) as [[|rate body]|].
  - intros y sr h f n b w w'. unfold Demo.cqt. by destruct (h <=? 0)%Z.
Qed.

Lemma demo_decibel : DecibelContract Demo.collaborators Demo.log10.
Proof.
  split; [|done]. intros x y _. apply demo_log10_monotone.
Qed.

Lemma demo_shapes : ShapeContract Demo.collaborators.
Proof.
  split; simpl.
  - intros y sr hop fmin n bpo w w' D. unfold Demo.cqt.
    destruct (Z.leb_spec hop 0) as [|Hhop]; [done|].
    intros [= _ <-]. split.
    + by rewrite length_map, length_seq.
    + apply List.Forall_forall. intros row Hrow.
      apply in_map_iff in Hrow as (k & <- & _).
      rewrite length_map, length_seq, Z2Nat.id; [done|].
      assert (0 <= Z.of_nat (length y) / hop)%Z by (apply Z.div_pos; lia).
      lia.
  - intros D w w' mag phase [= _ <- _]. apply map_length_map_map.
  - intros S ref w w' S' [= _ H]. by eapply librosa_amplitude_to_db_shape.
Qed.

Lemma demo_caching_only_cache :
  Respects only_cache_changes Demo.caching.
Proof.
  split; simpl.
  - intros p sr m o d w. split; [done|]. simpl. intros q Hq.
    by apply lookup_insert_ne.
  - intros y sr h f n b w. unfold Demo.cqt.
    by destruct (h <=? 0)%Z.
  - done.
  - done.
Qed.

Lemma only_cache_changes_trans (a b c : world) :
  only_cache_changes a b → only_cache_changes b c → only_cache_changes a c.
Proof.
  intros [Hg1 Hf1] [Hg2 Hf2]. split; [congruence|].
  intros p Hp. rewrite Hf2, Hf1; done.
Qed.

Lemma demo_loud_decibel : DecibelContract Demo.loud Demo.log10.
Proof.
  split; [|done]. intros x y _. apply demo_log10_monotone.
Qed.

(** ** The function at work on a small file *)

(** C1: the range limiter [cqt_lim] named by the docstring is never
    called, by any call, and the matrix returned is the decibel matrix
    as it is: on the four-sample tone the call returns entries below
    -10 dB although the limiter at hand would bring them into [-10, 0]. *)
Theorem range_limit_not_applied :
  (∀ C path st dur rate w,
     Forall (λ c, kind c.1 ≠ KCqtLim) (run C path st dur rate w).1.2)
  ∧ (run Demo.collaborators "tone.wav" 0 (4 # 1000) 48000 Demo.disk).2
    = Ok Demo.spectrogram
  ∧ (cqt_lim Demo.collaborators Demo.spectrogram Demo.disk).2
    ≠ Ok Demo.spectrogram
  ∧ ∃ y, In (Fin y) (concat Demo.spectrogram) ∧ y < -(10).
Proof.
  split; [|split; [|split]].
  - intros C path st dur rate w.
    destruct (run_runs C path st dur rate w); simpl;
      repeat constructor; discriminate.
  - vm_compute. reflexivity.
  - intros H. vm_compute in H. discriminate H.
  - eexists. split; [vm_compute; right; left; reflexivity|reflexivity].
Qed.

(** C5, counterexample: on the file whose samples are [2^20] times too
    large the call returns normally, the segment is not silent, and the
    returned matrix has NaN as its maximum: the squares of the
    fourth-power magnitudes overflow float32, and infinity minus infinity
    is NaN. *)
Lemma decibel_peak_is_not_zero_after_overflow :
  DecibelContract Demo.loud Demo.log10
  ∧ (librosa_load Demo.loud "tone.wav" None true 0 (4 # 1000) Demo.disk).2
    = Ok (Demo.loud_segment, 1000%Z)
  ∧ In (Fin (1048576 # 255)) Demo.loud_segment
  ∧ (run Demo.loud "tone.wav" 0 (4 # 1000) 48000 Demo.disk).2
    = Ok Demo.loud_spectrogram
  ∧ np_amax Demo.loud_spectrogram = Ok NaN
  ∧ ¬ (∃ mx, np_amax Demo.loud_spectrogram = Ok (Fin mx) ∧ mx == 0).
Proof.
  split; [exact demo_loud_decibel|].
  split; [vm_compute; reflexivity|].
  split; [vm_compute; do 3 right; left; reflexivity|].
  split; [vm_compute; reflexivity|].
  assert (H : np_amax Demo.loud_spectrogram = Ok NaN)
    by (vm_compute; reflexivity).
  split; [exact H|].
  intros (mx & Hmx & _). rewrite H in Hmx. discriminate Hmx.
Qed.

(** C10, counterexample: on the same file every entry of the returned
    matrix is NaN, so no entry lies in [-80, 0]. *)
Lemma top_db_does_not_bound_after_overflow :
  DecibelContract Demo.loud Demo.log10
  ∧ (run Demo.loud "tone.wav" 0 (4 # 1000) 48000 Demo.disk).2
    = Ok Demo.loud_spectrogram
  ∧ length (concat Demo.loud_spectrogram) = 96%nat
  ∧ (∀ y, In y (concat Demo.loud_spectrogram) → y = NaN)
  ∧ ¬ (∀ y, In y (concat Demo.loud_spectrogram) →
            ∃ q, y = Fin q ∧ -(80) <= q ∧ q <= 0).
Proof.
  split; [exact demo_loud_decibel|].
  split; [vm_compute; reflexivity|].
  split; [vm_compute; reflexivity|].
  assert (H : ∀ y, In y (concat Demo.loud_spectrogram) → y = NaN).
  { assert (Hall : forallb is_nan (concat Demo.loud_spectrogram) = true)
      by (vm_compute; reflexivity).
    rewrite forallb_forall in Hall. intros y Hy.
    specialize (Hall y Hy). by destruct y. }
  split; [exact H|].
  intros Hrange.
  assert (Hin : In NaN (concat Demo.loud_spectrogram))
    by (vm_compute; left; reflexivity).
  destruct (Hrange NaN Hin) as (q & Hq & _). discriminate Hq.
Qed.


Lemma power_is_finite_check (S : matrix) :
  forallb (λ s, is_fin (fsquare (fabs s))) (concat S) = true →
  power_is_finite S.
Proof.
  intros H s Hs. rewrite forallb_forall in H. specialize (H s Hs).
  destruct (fsquare (fabs s)) as [p| | |]; try done. by exists p.
Qed.

Lemma cqt_called_with_fixed_parameters_witness :
  Demo.load "tone.wav" None true 0 (4 # 1000) Demo.disk
    = (Demo.disk, Ok (Demo.segment, 1000%Z))
  ∧ (run Demo.collaborators "tone.wav" 0 (4 # 1000) 48000 Demo.disk).1.2
      !! 1%nat
    = Some (EvCqt Demo.segment 48000 1024 None 96 12,
            outcome_of
              (Demo.cqt Demo.segment 48000 1024 None 96 12 Demo.disk).2)
  ∧ (∀ (i : nat) ev o,
       (run Demo.collaborators "tone.wav" 0 (4 # 1000) 48000
          Demo.disk).1.2 !! i = Some (ev, o) → kind ev = KCqt → i = 1%nat)
  ∧ (∀ e,
       (Demo.cqt Demo.segment 48000 1024 None 96 12 Demo.disk).2 = Raise e →
       run Demo.collaborators "tone.wav" 0 (4 # 1000) 48000 Demo.disk
       = ((Demo.cqt Demo.segment 48000 1024 None 96 12 Demo.disk).1,
          [(EvLoad "tone.wav" None true 0 (4 # 1000), Returned);
           (EvCqt Demo.segment 48000 1024 None 96 12, Raised e)],
          Raise e))
  ∧ (∀ CQT,
       (Demo.cqt Demo.segment 48000 1024 None 96 12 Demo.disk).2 = Ok CQT →
       (run Demo.collaborators "tone.wav" 0 (4 # 1000) 48000 Demo.disk).1.2
         !! 2%nat
       = Some (EvMagphase CQT,
               outcome_of
                 (Demo.magphase CQT
                    (Demo.cqt Demo.segment 48000 1024 None 96 12
                       Demo.disk).1).2)).
Proof.
  split; [vm_compute; reflexivity|].
  apply (cqt_called_with_fixed_parameters Demo.collaborators "tone.wav" 0
           (4 # 1000) 48000 Demo.disk Demo.disk Demo.segment 1000).
  vm_compute. reflexivity.
Defined.

Lemma magnitude_to_the_fourth_witness :
  run Demo.collaborators "tone.wav" 0 (4 # 1000) 48000 Demo.disk
  = ((Demo.amplitude_to_db (np_pow Demo.magnitude 4) (RefCallable np_amax)
        Demo.disk).1,
     [(EvLoad "tone.wav" None true 0 (4 # 1000), Returned);
      (EvCqt Demo.segment 48000 1024 None 96 12, Returned);
      (EvMagphase Demo.transform, Returned);
      (EvAmplitudeToDb (np_pow Demo.magnitude 4) (RefCallable np_amax),
       outcome_of
         (Demo.amplitude_to_db (np_pow Demo.magnitude 4)
            (RefCallable np_amax) Demo.disk).2)],
     (Demo.amplitude_to_db (np_pow Demo.magnitude 4) (RefCallable np_amax)
        Demo.disk).2)
  ∧ Forall2 (Forall2 is_fourth_power_of) Demo.magnitude
      (np_pow Demo.magnitude 4).
Proof.
  apply (magnitude_to_the_fourth Demo.collaborators "tone.wav" 0 (4 # 1000)
           48000 Demo.disk Demo.disk Demo.disk Demo.disk Demo.segment 1000
           Demo.transform Demo.transform Demo.magnitude).
  - vm_compute. reflexivity.
  - vm_compute. reflexivity.
  - vm_compute. reflexivity.
Defined.

Lemma failure_propagates_witness :
  run (Demo.failing KLoad) "tone.wav" 0 (4 # 1000) 48000 Demo.disk
  = (Demo.disk,
     [(EvLoad "tone.wav" None true 0 (4 # 1000), Raised Demo.boom)],
     Raise Demo.boom)
  ∧ run (Demo.failing KCqt) "tone.wav" 0 (4 # 1000) 48000 Demo.disk
    = (Demo.disk,
       [(EvLoad "tone.wav" None true 0 (4 # 1000), Returned);
        (EvCqt Demo.segment 48000 1024 None 96 12, Raised Demo.boom)],
       Raise Demo.boom)
  ∧ run (Demo.failing KMagphase) "tone.wav" 0 (4 # 1000) 48000 Demo.disk
    = (Demo.disk,
       [(EvLoad "tone.wav" None true 0 (4 # 1000), Returned);
        (EvCqt Demo.segment 48000 1024 None 96 12, Returned);
        (EvMagphase Demo.transform, Raised Demo.boom)],
       Raise Demo.boom)
  ∧ run (Demo.failing KAmplitudeToDb) "tone.wav" 0 (4 # 1000) 48000
      Demo.disk
    = (Demo.disk,
       [(EvLoad "tone.wav" None true 0 (4 # 1000), Returned);
        (EvCqt Demo.segment 48000 1024 None 96 12, Returned);
        (EvMagphase Demo.transform, Returned);
        (EvAmplitudeToDb (np_pow Demo.magnitude 4) (RefCallable np_amax),
         Raised Demo.boom)],
       Raise Demo.boom).
Proof.
  split; [|split; [|split]].
  - apply (proj1 (failure_propagates (Demo.failing KLoad) "tone.wav" 0
                    (4 # 1000) 48000 Demo.disk Demo.boom)).
    reflexivity.
  - apply (proj1 (proj2 (failure_propagates (Demo.failing KCqt) "tone.wav"
                           0 (4 # 1000) 48000 Demo.disk Demo.boom))
             Demo.disk Demo.segment 1000%Z).
    + vm_compute. reflexivity.
    + reflexivity.
  - apply (proj1 (proj2 (proj2 (failure_propagates (Demo.failing KMagphase)
                                  "tone.wav" 0 (4 # 1000) 48000 Demo.disk
                                  Demo.boom)))
             Demo.disk Demo.segment 1000%Z Demo.disk).
    + vm_compute. reflexivity.
    + vm_compute. reflexivity.
    + reflexivity.
  - apply (proj2 (proj2 (proj2 (failure_propagates
                                  (Demo.failing KAmplitudeToDb) "tone.wav"
                                  0 (4 # 1000) 48000 Demo.disk Demo.boom)))
             Demo.disk Demo.segment 1000%Z Demo.disk Demo.transform
             Demo.disk Demo.magnitude Demo.transform).
    + vm_compute. reflexivity.
    + vm_compute. reflexivity.
    + vm_compute. reflexivity.
    + reflexivity.
Defined.


Lemma same_file_same_result_witness :
  files Demo.disk !! "tone.wav" = files Demo.busy_disk !! "tone.wav"
  ∧ (run Demo.collaborators "tone.wav" 0 (4 # 1000) 48000 Demo.disk).2
    = (run Demo.collaborators "tone.wav" 0 (4 # 1000) 48000 Demo.busy_disk).2
  ∧ (run Demo.collaborators "tone.wav" 0 (4 # 1000) 48000 Demo.disk).1.2
    = (run Demo.collaborators "tone.wav" 0 (4 # 1000) 48000
         Demo.busy_disk).1.2.
Proof.
  assert (H : files Demo.disk !! "tone.wav"
              = files Demo.busy_disk !! "tone.wav").
  { vm_compute. reflexivity. }
  split; [exact H|].
  exact (same_file_same_result Demo.collaborators "tone.wav" 0 (4 # 1000)
           48000 demo_deterministic Demo.disk Demo.busy_disk H).
Defined.

Lemma demo_late_power_is_finite :
  power_is_finite (np_pow Demo.late_magnitude 4).
Proof. apply power_is_finite_check. vm_compute. reflexivity. Qed.

Lemma decibel_peak_is_zero_witness :
  power_is_finite (np_pow Demo.late_magnitude 4)
  ∧ (Demo.amplitude_to_db (np_pow Demo.late_magnitude 4)
       (RefCallable np_amax) Demo.disk).2 = Ok Demo.late_spectrogram
  ∧ ∃ mx,
      np_amax Demo.late_spectrogram = Ok (Fin mx) ∧ mx == 0
      ∧ ∀ y, In y (concat Demo.late_spectrogram) → ∃ q, y = Fin q ∧ q <= 0.
Proof.
  split; [exact demo_late_power_is_finite|].
  apply (decibel_peak_is_zero Demo.collaborators Demo.log10 demo_decibel
           demo_log10_in_range "tone.wav" (1 # 1000) (3 # 1000) 48000
           Demo.disk Demo.disk Demo.disk Demo.disk Demo.late_segment 1000
           Demo.late_transform Demo.late_transform Demo.late_magnitude
           Demo.late_spectrogram).
  - vm_compute. reflexivity.
  - vm_compute. reflexivity.
  - vm_compute. reflexivity.
  - exact demo_late_power_is_finite.
  - vm_compute. reflexivity.
Defined.

Lemma top_db_bounds_returned_matrix_witness :
  power_is_finite (np_pow Demo.late_magnitude 4)
  ∧ (Demo.amplitude_to_db (np_pow Demo.late_magnitude 4)
       (RefCallable np_amax) Demo.disk).2 = Ok Demo.late_spectrogram
  ∧ ∃ mx,
      np_amax Demo.late_spectrogram = Ok (Fin mx)
      ∧ ∀ y, In y (concat Demo.late_spectrogram) →
             ∃ q, y = Fin q ∧ mx - 80 <= q ∧ -(80) <= q ∧ q <= 0.
Proof.
  split; [exact demo_late_power_is_finite|].
  apply (top_db_bounds_returned_matrix Demo.collaborators Demo.log10
           demo_decibel demo_log10_in_range "tone.wav" (1 # 1000)
           (3 # 1000) 48000 Demo.disk Demo.disk Demo.disk Demo.disk
           Demo.late_segment 1000 Demo.late_transform Demo.late_transform
           Demo.late_magnitude Demo.late_spectrogram).
  - vm_compute. reflexivity.
  - vm_compute. reflexivity.
  - vm_compute. reflexivity.
  - exact demo_late_power_is_finite.
  - vm_compute. reflexivity.
Defined.

Lemma spectrogram_shape_witness :
  Z.of_nat (length Demo.segment) = Qfloor ((4 # 1000) * inject_Z 1000)
  ∧ length Demo.spectrogram = 96%nat
  ∧ Forall (λ row, Z.of_nat (length row)
                   = (Qfloor ((4 # 1000) * inject_Z 1000 / 1024) + 1)%Z)
      Demo.spectrogram.
Proof.
  split; [reflexivity|].
  apply (spectrogram_shape Demo.collaborators demo_shapes "tone.wav" 0
           (4 # 1000) 48000 Demo.disk Demo.disk Demo.segment 1000
           Demo.spectrogram).
  - vm_compute. reflexivity.
  - reflexivity.
  - vm_compute. reflexivity.
Defined.

(** * Further properties of [load_q_transform_audio_file] *)

(** ** Values the function binds and never uses *)

Section Unused.
Variable C : Collaborators.
Variables (audio_filepath : string) (start_time_s duration_s : Q).
Variable sample_rate : Z.

(** X1: the rate the loader reports ([sr] of [data, sr = librosa.load(...)])
    has no influence: whatever rate is reported in its place, the call
    leaves the same world, logs the same calls and returns the same
    result. *)
Theorem reported_rate_is_ignored (f : Z → Z) (w : world) :
  run (with_reported_rate f C) audio_filepath start_time_s duration_s
    sample_rate w
  = run C audio_filepath start_time_s duration_s sample_rate w.
Proof.
  unfold run, load_q_transform_audio_file, mbind, py_bind, invoke; simpl.
  by destruct (librosa_load C audio_filepath None true start_time_s
                 duration_s w) as [w1 [[data sr]|e]].
Qed.

(** X2: of the pair returned by [librosa.magphase] only component [0] is
    used: whatever phase is returned, the call leaves the same world,
    makes the same calls with the same arguments and returns the same
    result. *)
Theorem phase_is_ignored (g : cmatrix → cmatrix) (w : world) :
  run (with_phase g C) audio_filepath start_time_s duration_s sample_rate w
  = run C audio_filepath start_time_s duration_s sample_rate w.
Proof.
  unfold run, load_q_transform_audio_file, mbind, py_bind, invoke; simpl.
  destruct (librosa_load C audio_filepath None true start_time_s
              duration_s w) as [w1 [[data sr]|e]]; simpl; [|done].
  destruct (librosa_cqt C data sample_rate 1024 None 96 12 w1)
    as [w2 [CQT|e]]; simpl; [|done].
  by destruct (librosa_magphase C CQT w2) as [w3 [[mag phase]|e]].
Qed.
End Unused.

(** ** The call log of a call that returns, and of one that raises *)

Lemma fpow4_not_negative (m : float32) : not_negative (fpow m 4).
Proof.
  destruct m as [q| | |]; try done.
  change (fpow (Fin q) 4) with (overflow (q * q * (q * q))).
  assert (H0 : 0 <= q * q * (q * q))
    by (apply Qmult_le_0_compat; apply Qsquare_nonneg).
  unfold overflow.
  destruct (Qle_bool (Qabs (q * q * (q * q))) float32_max); [done|].
  apply Qle_bool_iff in H0. by rewrite H0.
Qed.

Section Outcomes.
Variable C : Collaborators.
Variables (audio_filepath : string) (start_time_s duration_s : Q).
Variable sample_rate : Z.

Local Abbreviation call w :=
  (run C audio_filepath start_time_s duration_s sample_rate w).



(** X6: whatever the separator returns as magnitude, the matrix the
    decibel conversion is applied to has no negative entry (every entry
    is a fourth power: a finite value at least 0, [+inf], or NaN where
    the magnitude was NaN), and the call ends as that application does. *)
Theorem decibel_input_nonnegative
    (w w1 w2 w3 : world) (data : samples) (sr : Z) (CQT phase : cmatrix)
    (mag : matrix)
    (Hload : librosa_load C audio_filepath None true start_time_s
               duration_s w = (w1, Ok (data, sr)))
    (Hcqt : librosa_cqt C data sample_rate 1024 None 96 12 w1
            = (w2, Ok CQT))
    (Hmp : librosa_magphase C CQT w2 = (w3, Ok (mag, phase))) :
  ∃ S,
    (∀ s, In s (concat S) → not_negative s)
    ∧ (call w).1.1
      = (librosa_amplitude_to_db C S (RefCallable np_amax) w3).1
    ∧ (call w).2
      = (librosa_amplitude_to_db C S (RefCallable np_amax) w3).2
    ∧ (call w).1.2 !! 3%nat
      = Some (EvAmplitudeToDb S (RefCallable np_amax),
              outcome_of
                (librosa_amplitude_to_db C S (RefCallable np_amax) w3).2).
Proof.
  exists (np_pow mag 4). split.
  - intros s Hs. unfold np_pow in Hs. rewrite concat_map_map in Hs.
    apply in_map_iff in Hs as (m & <- & _). apply fpow4_not_negative.
  - destruct (run_runs C audio_filepath start_time_s duration_s sample_rate
                w)
      as [w1' e H1|w1' data' sr' w2' e H1 H2
         |w1' data' sr' w2' CQT' w3' e H1 H2 H3
         |w1' data' sr' w2' CQT' w3' mag' phase' w4 r H1 H2 H3 H4];
      rewrite Hload in H1; simplify_eq;
      rewrite Hcqt in H2; simplify_eq;
      rewrite Hmp in H3; simplify_eq.
    by rewrite H4.
Qed.
End Outcomes.

(** ** Shape and success once the transform has returned *)

Lemma amplitude_to_db_amax_total (log10 : Q → Q) (S : matrix) (s : float32) :
  In s (concat S) →
  ∃ M, Librosa.amplitude_to_db log10 S (RefCallable np_amax) = Ok M.
Proof.
  intros Hs. unfold Librosa.amplitude_to_db, mbind, result_bind.
  destruct (np_amax_inhabited (map (map fabs) S) (fabs s)) as [R ->].
  { rewrite concat_map_map. by apply in_map. }
  unfold Librosa.power_to_db, mbind, result_bind.
  change (Qle_bool (Librosa.amin_default ^ 2) 0) with false.
  change (negb (Qle_bool 0 Librosa.top_db_default)) with false. cbv iota.
  rewrite !map_map_map.
  set (g := λ t : float32,
         fsub (fscale 10 (flog10 log10
                            (fmaximum (Fin (Librosa.amin_default ^ 2))
                               (fsquare (fabs t)))))
              (fscale 10 (flog10 log10
                            (fmaximum (Fin (Librosa.amin_default ^ 2))
                               (fabs (fpow R 2)))))).
  destruct (np_amax_inhabited (map (map g) S) (g s)) as [mx ->].
  { rewrite concat_map_map. by apply in_map. }
  by eexists.
Qed.

Lemma full_rows_have_an_entry {A} (m : list (list A)) :
  length m ≠ 0%nat → Forall (λ row, (1 <= length row)%nat) m →
  ∃ x, In x (concat m).
Proof.
  destruct m as [|[|x row] m]; [done| |].
  - intros _ H. apply List.Forall_inv in H. simpl in H. lia.
  - intros _ _. exists x. by left.
Qed.

Section AfterTransform.
Variable C : Collaborators.
Hypothesis HS : ShapeContract C.
Variables (audio_filepath : string) (start_time_s duration_s : Q).
Variable sample_rate : Z.

Local Abbreviation call w :=
  (run C audio_filepath start_time_s duration_s sample_rate w).

(** X7: the columns follow the samples actually loaded: whatever segment
    the loader delivers (the whole span, a shorter tail, nothing), a call
    that returns gives 96 rows of [len(data) // 1024 + 1] columns each;
    the rate plays no part. *)
Theorem shape_follows_loaded_samples
    (w w1 : world) (data : samples) (rate : Z) (M : matrix)
    (Hload : librosa_load C audio_filepath None true start_time_s
               duration_s w = (w1, Ok (data, rate)))
    (Hok : (call w).2 = Ok M) :
  length M = 96%nat
  ∧ Forall (λ row, Z.of_nat (length row)
                   = (Z.of_nat (length data) / 1024 + 1)%Z) M.
Proof.
  revert Hok.
  destruct (run_runs C audio_filepath start_time_s duration_s sample_rate w)
    as [w1' e H1|w1' data' sr w2 e H1 H2|w1' data' sr w2 CQT w3 e H1 H2 H3
       |w1' data' sr w2 CQT w3 mag phase w4 r H1 H2 H3 H4]; simpl; try done.
  intros ->. rewrite Hload in H1. simplify_eq.
  destruct (cqt_shape C HS _ _ _ _ _ _ _ _ _ H2) as [Hrows Hcols].
  pose proof (magphase_shape C HS _ _ _ _ _ H3) as Emag.
  pose proof (amplitude_to_db_shape C HS _ _ _ _ _ H4) as Edb.
  rewrite np_pow_shape, Emag in Edb.
  set (P := λ n : nat, Z.of_nat n = (Z.of_nat (length data') / 1024 + 1)%Z).
  destruct (same_shape_rows M CQT P Edb) as [Elen Hall].
  split; [by rewrite Elen, Hrows|].
  apply Hall. eapply List.Forall_impl; [|exact Hcols].
  intros row Hrow. unfold P. rewrite Hrow. lia.
Qed.

(** X8: once load, cqt and magphase have returned, the call returns: the
    magnitude has 96 rows of at least one frame, so [np.amax] has entries
    to reduce and the decibel conversion, called with its default [amin]
    and [top_db], does not raise. *)
Theorem returns_once_transformed
    (log10 : Q → Q) (HD : DecibelContract C log10)
    (w w1 w2 w3 : world) (data : samples) (rate : Z) (CQT phase : cmatrix)
    (mag : matrix)
    (Hload : librosa_load C audio_filepath None true start_time_s
               duration_s w = (w1, Ok (data, rate)))
    (Hcqt : librosa_cqt C data sample_rate 1024 None 96 12 w1
            = (w2, Ok CQT))
    (Hmp : librosa_magphase C CQT w2 = (w3, Ok (mag, phase))) :
  ∃ M, (call w).2 = Ok M.
Proof.
  destruct (run_runs C audio_filepath start_time_s duration_s sample_rate w)
    as [w1' e H1|w1' data' sr w2' e H1 H2
       |w1' data' sr w2' CQT' w3' e H1 H2 H3
       |w1' data' sr w2' CQT' w3' mag' phase' w4 r H1 H2 H3 H4];
    rewrite Hload in H1; simplify_eq;
    rewrite Hcqt in H2; simplify_eq;
    rewrite Hmp in H3; simplify_eq; simpl.
  destruct (cqt_shape C HS _ _ _ _ _ _ _ _ _ Hcqt) as [Hrows Hcols].
  pose proof (magphase_shape C HS _ _ _ _ _ Hmp) as Emag.
  rewrite <- (np_pow_shape mag' 4) in Emag.
  destruct (same_shape_rows (np_pow mag' 4) CQT' (λ n, (1 <= n)%nat) Emag)
    as [Elen Hall].
  destruct (full_rows_have_an_entry (np_pow mag' 4)) as [s Hs].
  { rewrite Elen, Hrows. done. }
  { apply Hall. eapply List.Forall_impl; [|exact Hcols].
    intros row Hrow. simpl in Hrow.
    assert (0 <= Z.of_nat (length data') / 1024)%Z by (apply Z.div_pos; lia).
    lia. }
  destruct (amplitude_to_db_amax_total log10 _ _ Hs) as [M HM].
  exists M.
  pose proof (amplitude_to_db_computes C log10 HD (np_pow mag' 4)
                (RefCallable np_amax) w3') as E.
  rewrite H4, HM in E. simpl in E. by subst r.
Qed.
End AfterTransform.

(** ** From magnitudes to decibels, entry by entry *)

Lemma pow4_abs_le (x y : Q) : Qabs x <= Qabs y → Qabs (x ^ 4) <= Qabs (y ^ 4).
Proof.
  intros H. change (x ^ 4) with (x * x * (x * x)).
  change (y ^ 4) with (y * y * (y * y)). rewrite !Qabs_Qmult.
  pose proof (Qabs_nonneg x) as Hx.
  assert (H2 : Qabs x * Qabs x <= Qabs y * Qabs y).
  { apply Qmult_le_compat_nonneg; split; auto. }
  apply Qmult_le_compat_nonneg; (split; [apply Qsquare_nonneg|exact H2]).
Qed.

Lemma lookup_map_map {A B} (h : A → B) (m : list (list A)) (i j : nat) :
  map (map h) m !! i ≫= (.!! j) = h <$> (m !! i ≫= (.!! j)).
Proof.
  revert i. induction m as [|row m IH]; intros [|i]; simpl; auto.
  clear. revert j. induction row as [|x row IH]; intros [|j]; simpl; auto.
Qed.

Lemma lookup_in_concat {A} (m : list (list A)) (i j : nat) (x : A) :
  m !! i ≫= (.!! j) = Some x → In x (concat m).
Proof.
  intros H. apply in_concat. destruct (m !! i) as [row|] eqn:Hrow; [|done].
  exists row. simpl in H. split.
  - apply list_elem_of_In. by eapply list_elem_of_lookup_2.
  - apply list_elem_of_In. by eapply list_elem_of_lookup_2.
Qed.

Section DecibelOrder.
Variable log10 : Q → Q.
Hypothesis log10_mono : ∀ x y, 0 < x → x <= y → log10 x <= log10 y.

Local Abbreviation floor2 := (Librosa.amin_default ^ 2).
Local Abbreviation entry := (db_entry log10).

Lemma db_entry_monotone (R cap s t : Q) :
  Qabs s <= Qabs t → entry R cap s <= entry R cap t.
Proof.
  intros H. unfold db_entry. apply Q.max_le_compat_r.
  assert (Hle : Qmax floor2 (Qabs s * Qabs s)
                <= Qmax floor2 (Qabs t * Qabs t)).
  { apply Q.max_le_compat_l.
    apply Qmult_le_compat_nonneg; (split; [apply Qabs_nonneg|exact H]). }
  assert (Hpos : 0 < Qmax floor2 (Qabs s * Qabs s)).
  { eapply Qlt_le_trans; [apply floor2_pos|apply Q.le_max_l]. }
  pose proof (log10_mono _ _ Hpos Hle). lra.
Qed.

(** On exact rationals every entry of the result is [db_entry] of the
    entry it comes from, for the reference [R] = the largest magnitude and
    a cap that is not positive. *)
Lemma exact_amplitude_to_db_pointwise (S M : list (list Q)) :
  Exact.amplitude_to_db log10 S = Ok M →
  ∃ R cap,
    In R (map Qabs (concat S))
    ∧ (∀ y, In y (map Qabs (concat S)) → y <= R)
    ∧ cap <= 0
    ∧ M = map (map (entry R cap)) S.
Proof.
  unfold Exact.amplitude_to_db, mbind, result_bind.
  destruct (Exact.amax (map (map Qabs) S)) as [R|e] eqn:HR; [|done].
  apply amax_Ok in HR as [HRin HRub].
  rewrite concat_map_map in HRin, HRub.
  unfold Exact.power_to_db, mbind, result_bind.
  rewrite !map_map_map.
  set (g := λ s : Q,
         10 * log10 (Qmax floor2 (Qabs s * Qabs s))
         - 10 * log10 (Qmax floor2 (Qabs (R ^ 2)))).
  destruct (Exact.amax (map (map g) S)) as [mx|e] eqn:Hmx; [|done].
  intros [= <-]. rewrite map_map_map.
  apply amax_Ok in Hmx as [Hmxin _].
  rewrite concat_map_map in Hmxin.
  apply in_map_iff in Hmxin as (s & Hs & Hsin).
  exists R, (mx - Librosa.top_db_default). repeat split; try done.
  assert (Hg : g s <= 0).
  { apply (rel_nonpos log10 log10_mono); [apply Qabs_nonneg|].
    apply HRub, in_map, Hsin. }
  rewrite Hs in Hg. unfold Librosa.top_db_default. lra.
Qed.

(** At the largest magnitude the entry is 0 dB. *)
Lemma db_entry_peak (R cap s : Q) :
  0 <= R → cap <= 0 → Qabs s == R → entry R cap s == 0.
Proof.
  intros HR Hcap Hs. unfold db_entry.
  pose proof (rel_nonpos log10 log10_mono R (Qabs s) (Qabs_nonneg s)) as Hle.
  pose proof (rel_peak log10 log10_mono R HR) as Hpk.
  assert (Hge : 10 * log10 (Qmax floor2 (R * R))
                <= 10 * log10 (Qmax floor2 (Qabs s * Qabs s))).
  { assert (H : Qmax floor2 (R * R) <= Qmax floor2 (Qabs s * Qabs s)).
    { apply Q.max_le_compat_l. rewrite Hs. apply Qle_refl. }
    assert (Hpos : 0 < Qmax floor2 (R * R)).
    { eapply Qlt_le_trans; [apply floor2_pos|apply Q.le_max_l]. }
    pose proof (log10_mono _ _ Hpos H). lra. }
  apply Qle_antisym.
  - apply Q.max_lub; [|done]. apply Hle. rewrite Hs. apply Qle_refl.
  - eapply Qle_trans; [|apply Q.le_max_l]. lra.
Qed.

Lemma db_entry_quiet_le (R cap s t : Q) :
  Qabs s <= Librosa.amin_default →
  entry R cap s <= entry R cap t.
Proof.
  intros Hs. unfold db_entry. apply Q.max_le_compat_r.
  assert (Hle : Qmax floor2 (Qabs s * Qabs s)
                <= Qmax floor2 (Qabs t * Qabs t)).
  { apply Q.max_lub; [apply Q.le_max_l|].
    eapply Qle_trans; [|apply Q.le_max_l].
    change floor2 with (Librosa.amin_default * Librosa.amin_default).
    apply Qmult_le_compat_nonneg; (split; [apply Qabs_nonneg|exact Hs]). }
  assert (Hpos : 0 < Qmax floor2 (Qabs s * Qabs s)).
  { eapply Qlt_le_trans; [apply floor2_pos|apply Q.le_max_l]. }
  pose proof (log10_mono _ _ Hpos Hle). lra.
Qed.
End DecibelOrder.

(** A magnitude whose fourth power has a finite square is finite, and so
    is its fourth power. *)
Lemma finite_power_finite_magnitude (m : float32) :
  (∃ p, fsquare (fabs (fpow m 4)) = Fin p) →
  ∃ q, m = Fin q ∧ fpow m 4 = Fin (q ^ 4).
Proof.
  intros [p Hp]. destruct m as [q| | |]; try done.
  exists q. split; [done|].
  change (fpow (Fin q) 4) with (overflow (q ^ 4)) in *.
  unfold overflow in *.
  destruct (Qle_bool (Qabs (q ^ 4)) float32_max); [done|].
  by destruct (Qle_bool 0 (q ^ 4)).
Qed.

(** What a call returns, entry by entry, when no square overflows: the
    magnitude [Fin q] at a place gives [Fin (db_entry log10 R cap (q^4))]
    at the same place, for the reference [R] = the largest fourth power
    and a cap that is not positive. *)
Lemma returned_entry_by_entry
    (C : Collaborators) (log10 : Q → Q) (HD : DecibelContract C log10)
    (Hrange : log10_in_range log10)
    (audio_filepath : string) (start_time_s duration_s : Q)
    (sample_rate : Z) (w w1 w2 w3 : world) (data : samples) (rate : Z)
    (CQT phase : cmatrix) (mag M : matrix)
    (Hload : librosa_load C audio_filepath None true start_time_s
               duration_s w = (w1, Ok (data, rate)))
    (Hcqt : librosa_cqt C data sample_rate 1024 None 96 12 w1
            = (w2, Ok CQT))
    (Hmp : librosa_magphase C CQT w2 = (w3, Ok (mag, phase)))
    (Hfinite : power_is_finite (np_pow mag 4))
    (Hok : (run C audio_filepath start_time_s duration_s sample_rate w).2
           = Ok M) :
  (librosa_amplitude_to_db C (np_pow mag 4) (RefCallable np_amax) w3).2
  = Ok M
  ∧ ∃ R cap,
    0 <= R ∧ cap <= 0
    ∧ (∃ q0, In (Fin q0) (concat mag) ∧ R = Qabs (q0 ^ 4))
    ∧ (∀ q, In (Fin q) (concat mag) → Qabs (q ^ 4) <= R)
    ∧ (∀ m, In m (concat mag) → ∃ q, m = Fin q)
    ∧ M = map (map (λ m, Fin (db_entry log10 R cap (fval m ^ 4)))) mag.
Proof.
  destruct (returned_is_exact_decibel C log10 HD Hrange audio_filepath
              start_time_s duration_s sample_rate w w1 w2 w3 data rate CQT
              phase mag M Hload Hcqt Hmp Hfinite Hok)
    as (Hconv & M0 & -> & HM0).
  split; [exact Hconv|]. clear Hconv.
  destruct (exact_amplitude_to_db_pointwise log10
              (log10_monotone C log10 HD) _ _ HM0)
    as (R & cap & HRin & HRub & Hcap & ->).
  assert (Hmag : ∀ m, In m (concat mag) →
                   ∃ q, m = Fin q ∧ fpow m 4 = Fin (q ^ 4)).
  { intros m Hm. apply finite_power_finite_magnitude, Hfinite.
    unfold np_pow. rewrite concat_map_map.
    apply (in_map (λ x, fpow x 4)), Hm. }
  assert (Eval4 : ∀ m, In m (concat mag) → fval (fpow m 4) = fval m ^ 4).
  { intros m Hm. destruct (Hmag m Hm) as (q & -> & ->). done. }
  unfold np_pow in HRin, HRub.
  rewrite map_map_map, concat_map_map, map_map in HRin, HRub.
  exists R, cap. split.
  { apply in_map_iff in HRin as (m & <- & _). apply Qabs_nonneg. }
  split; [done|]. split.
  { apply in_map_iff in HRin as (m & <- & Hm).
    destruct (Hmag m Hm) as (q & -> & ->). by exists q. }
  split.
  { intros q Hq.
    apply (HRub (Qabs (q ^ 4))).
    apply in_map_iff. exists (Fin q). split; [|done].
    destruct (Hmag _ Hq) as (q' & [= <-] & ->). done. }
  split.
  { intros m Hm. destruct (Hmag m Hm) as (q & -> & _). by exists q. }
  unfold lift, np_pow. rewrite !map_map_map.
  apply map_map_ext_in. intros m Hm. by rewrite Eval4.
Qed.

Lemma Forall2_map_map_in {A B} (P : A → B → Prop) (f : A → B)
    (m : list (list A)) :
  (∀ x, In x (concat m) → P x (f x)) →
  Forall2 (Forall2 P) m (map (map f) m).
Proof.
  induction m as [|row m IH]; intros H; simpl; constructor.
  - assert (Hrow : ∀ x, In x row → P x (f x)).
    { intros x Hx. apply H. simpl. apply in_or_app. by left. }
    clear -Hrow. induction row as [|x row IH]; simpl; constructor.
    + apply Hrow. by left.
    + apply IH. intros y Hy. apply Hrow. by right.
  - apply IH. intros x Hx. apply H. simpl. apply in_or_app. by right.
Qed.

(** X9: the returned matrix is what the conversion, applied with
    [ref=np.amax] to the fourth power of the magnitude, returns; when the
    squares the conversion takes are finite float32 values, it is the
    magnitude matrix taken entry by entry
    through one function that never decreases when the absolute
    magnitude grows: a bin at least as loud as another never comes out
    lower in decibels. *)
Theorem louder_is_never_lower
    (C : Collaborators) (log10 : Q → Q) (HD : DecibelContract C log10)
    (Hrange : log10_in_range log10)
    (audio_filepath : string) (start_time_s duration_s : Q)
    (sample_rate : Z) (w w1 w2 w3 : world) (data : samples) (rate : Z)
    (CQT phase : cmatrix) (mag M : matrix)
    (Hload : librosa_load C audio_filepath None true start_time_s
               duration_s w = (w1, Ok (data, rate)))
    (Hcqt : librosa_cqt C data sample_rate 1024 None 96 12 w1
            = (w2, Ok CQT))
    (Hmp : librosa_magphase C CQT w2 = (w3, Ok (mag, phase)))
    (Hfinite : power_is_finite (np_pow mag 4))
    (Hok : (run C audio_filepath start_time_s duration_s sample_rate w).2
           = Ok M) :
  (librosa_amplitude_to_db C (np_pow mag 4) (RefCallable np_amax) w3).2
  = Ok M
  ∧ ∃ h : Q → Q,
    (∀ x y, Qabs x <= Qabs y → h x <= h y)
    ∧ Forall2 (Forall2 (λ m y, ∃ q, m = Fin q ∧ y = Fin (h q))) mag M.
Proof.
  destruct (returned_entry_by_entry C log10 HD Hrange audio_filepath
              start_time_s duration_s sample_rate w w1 w2 w3 data rate CQT
              phase mag M Hload Hcqt Hmp Hfinite Hok)
    as (Hconv & R & cap & _ & _ & _ & _ & Hfin & HM).
  split; [exact Hconv|]. rewrite HM.
  exists (λ q, db_entry log10 R cap (q ^ 4)). split.
  - intros x y Hxy.
    apply (db_entry_monotone log10 (log10_monotone C log10 HD)).
    by apply pow4_abs_le.
  - apply Forall2_map_map_in. intros m Hm.
    destruct (Hfin m Hm) as [q ->]. by exists q.
Qed.

(** X10: the returned matrix is what the conversion, applied with
    [ref=np.amax] to the fourth power of the magnitude, returns; when the
    squares the conversion takes are finite float32 values, the entry at
    the place of a largest magnitude is 0 dB: if the
    magnitude at row [i], frame [j] is at least every magnitude of the
    matrix in absolute value, the returned matrix holds a finite value
    equal to 0 there. *)
Theorem loudest_bin_is_zero_dB
    (C : Collaborators) (log10 : Q → Q) (HD : DecibelContract C log10)
    (Hrange : log10_in_range log10)
    (audio_filepath : string) (start_time_s duration_s : Q)
    (sample_rate : Z) (w w1 w2 w3 : world) (data : samples) (rate : Z)
    (CQT phase : cmatrix) (mag M : matrix)
    (Hload : librosa_load C audio_filepath None true start_time_s
               duration_s w = (w1, Ok (data, rate)))
    (Hcqt : librosa_cqt C data sample_rate 1024 None 96 12 w1
            = (w2, Ok CQT))
    (Hmp : librosa_magphase C CQT w2 = (w3, Ok (mag, phase)))
    (Hfinite : power_is_finite (np_pow mag 4))
    (Hok : (run C audio_filepath start_time_s duration_s sample_rate w).2
           = Ok M)
    (i j : nat) (q : Q) (y : float32)
    (Hm : mag !! i ≫= (.!! j) = Some (Fin q))
    (Hy : M !! i ≫= (.!! j) = Some y)
    (Hmax : ∀ q', In (Fin q') (concat mag) → Qabs q' <= Qabs q) :
  (librosa_amplitude_to_db C (np_pow mag 4) (RefCallable np_amax) w3).2
  = Ok M
  ∧ ∃ z, y = Fin z ∧ z == 0.
Proof.
  destruct (returned_entry_by_entry C log10 HD Hrange audio_filepath
              start_time_s duration_s sample_rate w w1 w2 w3 data rate CQT
              phase mag M Hload Hcqt Hmp Hfinite Hok)
    as (Hconv & R & cap & HR0 & Hcap & (q0 & Hq0 & HR) & HRub & _ & HM).
  split; [exact Hconv|].
  rewrite HM, lookup_map_map, Hm in Hy. simpl in Hy. simplify_eq.
  eexists. split; [done|].
  apply (db_entry_peak log10 (log10_monotone C log10 HD)); [done|done|].
  apply Qle_antisym.
  - apply HRub. by eapply lookup_in_concat.
  - by apply pow4_abs_le, Hmax.
Qed.

(** X11: the returned matrix is what the conversion, applied with
    [ref=np.amax] to the fourth power of the magnitude, returns; when the
    squares the conversion takes are finite float32 values, a bin whose
    magnitude to the fourth power is at most the
    conversion's default [amin] (1e-5) comes out no higher than any other
    bin, and two such bins come out equal: quiet bins cannot be told
    apart afterwards. *)
Theorem quiet_bins_share_the_lowest_value
    (C : Collaborators) (log10 : Q → Q) (HD : DecibelContract C log10)
    (Hrange : log10_in_range log10)
    (audio_filepath : string) (start_time_s duration_s : Q)
    (sample_rate : Z) (w w1 w2 w3 : world) (data : samples) (rate : Z)
    (CQT phase : cmatrix) (mag M : matrix)
    (Hload : librosa_load C audio_filepath None true start_time_s
               duration_s w = (w1, Ok (data, rate)))
    (Hcqt : librosa_cqt C data sample_rate 1024 None 96 12 w1
            = (w2, Ok CQT))
    (Hmp : librosa_magphase C CQT w2 = (w3, Ok (mag, phase)))
    (Hfinite : power_is_finite (np_pow mag 4))
    (Hok : (run C audio_filepath start_time_s duration_s sample_rate w).2
           = Ok M)
    (i j k l : nat) (q1 q2 : Q) (y1 y2 : float32)
    (Hm1 : mag !! i ≫= (.!! j) = Some (Fin q1))
    (Hy1 : M !! i ≫= (.!! j) = Some y1)
    (Hm2 : mag !! k ≫= (.!! l) = Some (Fin q2))
    (Hy2 : M !! k ≫= (.!! l) = Some y2)
    (Hquiet : Qabs (q1 ^ 4) <= Librosa.amin_default) :
  (librosa_amplitude_to_db C (np_pow mag 4) (RefCallable np_amax) w3).2
  = Ok M
  ∧ ∃ z1 z2,
    y1 = Fin z1 ∧ y2 = Fin z2 ∧ z1 <= z2
    ∧ (Qabs (q2 ^ 4) <= Librosa.amin_default → z1 == z2).
Proof.
  destruct (returned_entry_by_entry C log10 HD Hrange audio_filepath
              start_time_s duration_s sample_rate w w1 w2 w3 data rate CQT
              phase mag M Hload Hcqt Hmp Hfinite Hok)
    as (Hconv & R & cap & _ & _ & _ & _ & _ & HM).
  split; [exact Hconv|].
  rewrite HM, lookup_map_map, Hm1 in Hy1.
  rewrite HM, lookup_map_map, Hm2 in Hy2.
  simpl in Hy1, Hy2. simplify_eq.
  pose proof (db_entry_quiet_le log10 (log10_monotone C log10 HD) R cap)
    as Hle.
  do 2 eexists. split; [done|]. split; [done|].
  split; [by apply Hle|].
  intros Hquiet2. apply Qle_antisym; by apply Hle.
Qed.

(** ** The further properties on the small file *)



Lemma decibel_input_nonnegative_witness :
  ∃ S,
    (∀ s, In s (concat S) → not_negative s)
    ∧ (run Demo.collaborators "tone.wav" 0 (4 # 1000) 48000 Demo.disk).1.1
      = (Demo.amplitude_to_db S (RefCallable np_amax) Demo.disk).1
    ∧ (run Demo.collaborators "tone.wav" 0 (4 # 1000) 48000 Demo.disk).2
      = (Demo.amplitude_to_db S (RefCallable np_amax) Demo.disk).2
    ∧ (run Demo.collaborators "tone.wav" 0 (4 # 1000) 48000 Demo.disk).1.2
        !! 3%nat
      = Some (EvAmplitudeToDb S (RefCallable np_amax),
              outcome_of
                (Demo.amplitude_to_db S (RefCallable np_amax) Demo.disk).2).
Proof.
  apply (decibel_input_nonnegative Demo.collaborators "tone.wav" 0
           (4 # 1000) 48000 Demo.disk Demo.disk Demo.disk Demo.disk
           Demo.segment 1000 Demo.transform Demo.transform Demo.magnitude).
  - vm_compute. reflexivity.
  - vm_compute. reflexivity.
  - vm_compute. reflexivity.
Defined.

Lemma shape_follows_loaded_samples_witness :
  Demo.load "tone.wav" None true (2 # 1000) (4 # 1000) Demo.disk
  = (Demo.disk, Ok ([Fin (64 # 255); Fin (1 # 255)], 1000%Z))
  ∧ ∃ M,
      (run Demo.collaborators "tone.wav" (2 # 1000) (4 # 1000) 48000
         Demo.disk).2 = Ok M
      ∧ length M = 96%nat
      ∧ Forall (λ row, Z.of_nat (length row)
                       = (Z.of_nat (length [Fin (64 # 255); Fin (1 # 255)])
                          / 1024 + 1)%Z) M.
Proof.
  assert (Hload : Demo.load "tone.wav" None true (2 # 1000) (4 # 1000)
                    Demo.disk
                  = (Demo.disk, Ok ([Fin (64 # 255); Fin (1 # 255)],
                                    1000%Z))).
  { vm_compute. reflexivity. }
  split; [exact Hload|].
  destruct (run Demo.collaborators "tone.wav" (2 # 1000) (4 # 1000) 48000
              Demo.disk).2 as [M|e] eqn:Hok.
  - exists M. split; [reflexivity|].
    exact (shape_follows_loaded_samples Demo.collaborators demo_shapes
             "tone.wav" (2 # 1000) (4 # 1000) 48000 Demo.disk Demo.disk
             [Fin (64 # 255); Fin (1 # 255)] 1000 M Hload Hok).
  - vm_compute in Hok. discriminate Hok.
Defined.

Lemma returns_once_transformed_witness :
  ∃ M, (run Demo.collaborators "tone.wav" 0 (4 # 1000) 48000 Demo.disk).2
       = Ok M.
Proof.
  apply (returns_once_transformed Demo.collaborators demo_shapes "tone.wav"
           0 (4 # 1000) 48000 Demo.log10 demo_decibel Demo.disk Demo.disk
           Demo.disk Demo.disk Demo.segment 1000 Demo.transform
           Demo.transform Demo.magnitude).
  - vm_compute. reflexivity.
  - vm_compute. reflexivity.
  - vm_compute. reflexivity.
Defined.

Lemma louder_is_never_lower_witness :
  (Demo.amplitude_to_db (np_pow Demo.late_magnitude 4)
     (RefCallable np_amax) Demo.disk).2 = Ok Demo.late_spectrogram
  ∧ ∃ h : Q → Q,
    (∀ x y, Qabs x <= Qabs y → h x <= h y)
    ∧ Forall2 (Forall2 (λ m y, ∃ q, m = Fin q ∧ y = Fin (h q)))
        Demo.late_magnitude Demo.late_spectrogram.
Proof.
  apply (louder_is_never_lower Demo.collaborators Demo.log10 demo_decibel
           demo_log10_in_range "tone.wav" (1 # 1000) (3 # 1000) 48000
           Demo.disk Demo.disk Demo.disk Demo.disk Demo.late_segment 1000
           Demo.late_transform Demo.late_transform Demo.late_magnitude
           Demo.late_spectrogram).
  - vm_compute. reflexivity.
  - vm_compute. reflexivity.
  - vm_compute. reflexivity.
  - exact demo_late_power_is_finite.
  - vm_compute. reflexivity.
Defined.

Lemma loudest_bin_is_zero_dB_witness :
  Demo.late_magnitude !! 0%nat ≫= (.!! 0%nat) = Some (Fin (128 # 255))
  ∧ ∃ y, Demo.late_spectrogram !! 0%nat ≫= (.!! 0%nat) = Some y
         ∧ (Demo.amplitude_to_db (np_pow Demo.late_magnitude 4)
     (RefCallable np_amax) Demo.disk).2 = Ok Demo.late_spectrogram
  ∧ ∃ z, y = Fin z ∧ z == 0.
Proof.
  split; [reflexivity|]. eexists. split; [reflexivity|].
  apply (loudest_bin_is_zero_dB Demo.collaborators Demo.log10 demo_decibel
           demo_log10_in_range "tone.wav" (1 # 1000) (3 # 1000) 48000
           Demo.disk Demo.disk Demo.disk Demo.disk Demo.late_segment 1000
           Demo.late_transform Demo.late_transform Demo.late_magnitude
           Demo.late_spectrogram)
    with (i := 0%nat) (j := 0%nat) (q := 128 # 255).
  - vm_compute. reflexivity.
  - vm_compute. reflexivity.
  - vm_compute. reflexivity.
  - exact demo_late_power_is_finite.
  - vm_compute. reflexivity.
  - reflexivity.
  - reflexivity.
  - intros q' Hq'.
    assert (Hall : forallb (λ x, Qle_bool (Qabs (fval x)) (Qabs (128 # 255)))
                     (concat Demo.late_magnitude) = true).
    { vm_compute. reflexivity. }
    rewrite forallb_forall in Hall.
    apply Qle_bool_iff, (Hall (Fin q')), Hq'.
Defined.

Lemma quiet_bins_share_the_lowest_value_witness :
  Demo.late_magnitude !! 20%nat ≫= (.!! 0%nat) = Some (Fin (128 # 5355))
  ∧ Demo.late_magnitude !! 30%nat ≫= (.!! 0%nat) = Some (Fin (128 # 7905))
  ∧ Qabs ((128 # 5355) ^ 4) <= Librosa.amin_default
  ∧ ∃ y1 y2,
      Demo.late_spectrogram !! 20%nat ≫= (.!! 0%nat) = Some y1
      ∧ Demo.late_spectrogram !! 30%nat ≫= (.!! 0%nat) = Some y2
      ∧ (Demo.amplitude_to_db (np_pow Demo.late_magnitude 4)
     (RefCallable np_amax) Demo.disk).2 = Ok Demo.late_spectrogram
  ∧ ∃ z1 z2,
          y1 = Fin z1 ∧ y2 = Fin z2 ∧ z1 <= z2
          ∧ (Qabs ((128 # 7905) ^ 4) <= Librosa.amin_default → z1 == z2).
Proof.
  split; [reflexivity|]. split; [reflexivity|].
  assert (Hq : Qabs ((128 # 5355) ^ 4) <= Librosa.amin_default).
  { apply Qle_bool_iff. vm_compute. reflexivity. }
  split; [exact Hq|].
  do 2 eexists. split; [reflexivity|]. split; [reflexivity|].
  apply (quiet_bins_share_the_lowest_value Demo.collaborators Demo.log10
           demo_decibel demo_log10_in_range "tone.wav" (1 # 1000)
           (3 # 1000) 48000 Demo.disk Demo.disk Demo.disk Demo.disk
           Demo.late_segment 1000 Demo.late_transform Demo.late_transform
           Demo.late_magnitude Demo.late_spectrogram)
    with (i := 20%nat) (j := 0%nat) (k := 30%nat) (l := 0%nat)
         (q1 := 128 # 5355) (q2 := 128 # 7905).
  - vm_compute. reflexivity.
  - vm_compute. reflexivity.
  - vm_compute. reflexivity.
  - exact demo_late_power_is_finite.
  - vm_compute. reflexivity.
  - reflexivity.
  - reflexivity.
  - reflexivity.
  - reflexivity.
  - exact Hq.
Defined.

(** ** A bound that rules overflow out *)

Lemma Qsquare_le (a b : Q) : 0 <= a → a <= b → a * a <= b * b.
Proof. intros H0 H. apply Qmult_le_compat_nonneg; split; auto. Qed.

(** Magnitudes of at most 65535 in absolute value (just below [2^16])
    have fourth powers whose squares are finite float32 values. *)
Lemma magnitudes_below_2_16_have_finite_power (mag : matrix) :
  (∀ m, In m (concat mag) → ∃ q, m = Fin q ∧ Qabs q <= 65535) →
  power_is_finite (np_pow mag 4).
Proof.
  intros H s Hs. unfold np_pow in Hs. rewrite concat_map_map in Hs.
  apply in_map_iff in Hs as (m & <- & Hm).
  destruct (H m Hm) as (q & -> & Hq).
  change (fpow (Fin q) 4) with (overflow (q * q * (q * q))).
  pose proof (Qabs_nonneg q) as H0.
  pose proof (Qsquare_le _ _ H0 Hq) as H2.
  pose proof (Qsquare_le _ _ (Qsquare_nonneg (Qabs q)) H2) as H4.
  pose proof (Qsquare_le _ _
                (Qmult_le_0_compat _ _ (Qsquare_nonneg (Qabs q))
                   (Qsquare_nonneg (Qabs q))) H4) as H8.
  assert (E4 : Qabs (q * q * (q * q))
               == Qabs q * Qabs q * (Qabs q * Qabs q))
    by (by rewrite !Qabs_Qmult).
  rewrite overflow_fits.
  - simpl. rewrite overflow_fits; [by eexists|].
    rewrite Qabs_pos by apply Qsquare_nonneg.
    rewrite E4. eapply Qle_trans; [exact H8|]. by vm_compute.
  - rewrite E4. eapply Qle_trans; [exact H4|]. by vm_compute.
Qed.
